(** * A.R.T.I.S.T. session loop: a shallow embedding of [artist.py]

    The development models the kiosk loop of [artist.py]: event polling,
    the daydream throttle, the voice and daydream paths, the moderation gate,
    image generation, the verse arbiter ([get_best_verse]) and the speech
    cache ([speak_text]).

    Conventions.
    - A Python [str] is a [string]; a character is a code point below 256
      (Latin-1), so that [str.isdigit] and [int] can be given on every
      character of the type.
    - Python [bytes] are [list byte]; Python integers are [Z]; the readings of
      [time.monotonic] are taken in whole seconds ([Z]).
    - The environment (input devices, clock, random generator, microphone,
      the OpenAI and Azure services) is a record of answer tapes, one per
      collaborator; every call consumes the next answer of its tape and is
      appended to the trace of the world. A call whose tape is empty yields
      [Starved]: the script of the environment has ended.
    - The file system is a finite map from paths to file contents, changed
      only by the program; the directories of the configuration exist.
    - Messages to the logger are not modelled, except where formatting the
      message raises.
    - Rendering is kept as display effects: the fitting of the font and the
      blitting of the verse lines are one effect, and the image service
      answers with the decoded bytes of the image. *)

From Stdlib Require Import ZArith List String Ascii Bool Lia.
From stdpp Require Import base gmap strings list pretty.
Import ListNotations.

Local Open Scope string_scope.
Local Open Scope list_scope.
Local Open Scope Z_scope.

(** ** Python values *)

Definition bytes := list Byte.byte.

Inductive exn :=
| ValueError
| IndexError
| UnboundLocalError
| FileNotFoundError
| EOFError
| WaveError
| ServiceError (code : Z).

(** [str.isdigit] on one character: Numeric_Type=Decimal or Digit. Below 256
    these are '0'..'9' and the superscripts U+00B2, U+00B3 and U+00B9. *)
Definition isdecimal (c : ascii) : bool :=
  let n := Z.of_nat (nat_of_ascii c) in (48 <=? n) && (n <=? 57).

Definition isdigit (c : ascii) : bool :=
  let n := Z.of_nat (nat_of_ascii c) in
  isdecimal c || (n =? 178) || (n =? 179) || (n =? 185).

(** [int(c)] for a one-character string: the decimal value of a decimal
    digit; white space alone and every other character raise [ValueError]. *)
Definition int_of_char (c : ascii) : exn + Z :=
  if isdecimal c then inr (Z.of_nat (nat_of_ascii c) - 48) else inl ValueError.

(** [seq[i]] on a list, negative indices counting from the end. *)
Definition py_index {A} (l : list A) (i : Z) : exn + A :=
  let n := Z.of_nat (length l) in
  if (i <? - n) || (n <=? i) then inl IndexError
  else match l !! Z.to_nat (if i <? 0 then i + n else i) with
       | Some x => inr x
       | None => inl IndexError
       end.

(** [posixpath.join] of two components. *)
Definition ends_with_slash (s : string) : bool :=
  match rev (list_ascii_of_string s) with
  | c :: _ => Ascii.eqb c "/"
  | [] => false
  end.

Definition path_join (a b : string) : string :=
  match b with
  | String "/" _ => b
  | _ => if (String.eqb a "") || ends_with_slash a then a +:+ b
         else a +:+ "/" +:+ b
  end.

(** ** Devices and services *)

Inductive key := K_ESCAPE | K_SPACE | K_d | K_other.

Inductive pg_event :=
| KEYDOWN (k : key)
| JOYBUTTONDOWN (button : Z)
| OTHER_EVENT.

Inductive status := Quit | Next | Daydream.

Record message := { role : string; content : string }.

Record AudioPlayer := { channels : Z; sample_width : Z; rate : Z }.

Record AzureSpeech := { language : string; gender : string; voice : string }.

(** Contents of a file, by the writer that produced them. *)
Inductive file :=
| EmptyFile
| TextFile (text : string)
| ImageFile (data : bytes)
| WaveFile (nchannels sampwidth framerate : Z) (frames : bytes)
| Screenshot (verse img_side : string) (image : bytes).

(** Every interaction of the program with its environment. *)
Inductive effect :=
| EventGet
| Monotonic (t : Z)
| RandomDraw (r : nat)
| ShowStatus (text : string)
| DisplayUpdate
| RenderVerse (verse : string) (img_side : string)
| BlitImage (path : string)
| PygameQuit
| Record_ (max_seconds : Z)
| Transcribe (audio : bytes)
| ChatCompletion (messages : list message)
| Moderation (input : string)
| ImageCreate (prompt : string) (width height : Z)
| TextToSpeech (svc : AzureSpeech) (text : string)
| Play (frames : bytes)
| PathExists (path : string)
| WriteFile (path : string) (f : file)
| ReadFile (path : string).

Record World := {
  w_events : list (list pg_event * (Z -> bool));
  w_clock : list Z;
  w_random : list nat;
  w_mic : list (bytes * bool);
  w_whisper : list (exn + string);
  w_chat : list (exn + string);
  w_moderation : list (exn + bool);
  w_image : list (exn + bytes);
  w_speech : list (exn + bytes);
  w_files : gmap string file;
  w_trace : list effect }.

Definition set_events (v : list (list pg_event * (Z -> bool))) (w : World) : World :=
  {| w_events := v; w_clock := w_clock w; w_random := w_random w;
     w_mic := w_mic w; w_whisper := w_whisper w; w_chat := w_chat w;
     w_moderation := w_moderation w; w_image := w_image w;
     w_speech := w_speech w; w_files := w_files w; w_trace := w_trace w |}.

Definition set_clock (v : list Z) (w : World) : World :=
  {| w_events := w_events w; w_clock := v; w_random := w_random w;
     w_mic := w_mic w; w_whisper := w_whisper w; w_chat := w_chat w;
     w_moderation := w_moderation w; w_image := w_image w;
     w_speech := w_speech w; w_files := w_files w; w_trace := w_trace w |}.

Definition set_random (v : list nat) (w : World) : World :=
  {| w_events := w_events w; w_clock := w_clock w; w_random := v;
     w_mic := w_mic w; w_whisper := w_whisper w; w_chat := w_chat w;
     w_moderation := w_moderation w; w_image := w_image w;
     w_speech := w_speech w; w_files := w_files w; w_trace := w_trace w |}.

Definition set_mic (v : list (bytes * bool)) (w : World) : World :=
  {| w_events := w_events w; w_clock := w_clock w; w_random := w_random w;
     w_mic := v; w_whisper := w_whisper w; w_chat := w_chat w;
     w_moderation := w_moderation w; w_image := w_image w;
     w_speech := w_speech w; w_files := w_files w; w_trace := w_trace w |}.

Definition set_whisper (v : list (exn + string)) (w : World) : World :=
  {| w_events := w_events w; w_clock := w_clock w; w_random := w_random w;
     w_mic := w_mic w; w_whisper := v; w_chat := w_chat w;
     w_moderation := w_moderation w; w_image := w_image w;
     w_speech := w_speech w; w_files := w_files w; w_trace := w_trace w |}.

Definition set_chat (v : list (exn + string)) (w : World) : World :=
  {| w_events := w_events w; w_clock := w_clock w; w_random := w_random w;
     w_mic := w_mic w; w_whisper := w_whisper w; w_chat := v;
     w_moderation := w_moderation w; w_image := w_image w;
     w_speech := w_speech w; w_files := w_files w; w_trace := w_trace w |}.

Definition set_moderation (v : list (exn + bool)) (w : World) : World :=
  {| w_events := w_events w; w_clock := w_clock w; w_random := w_random w;
     w_mic := w_mic w; w_whisper := w_whisper w; w_chat := w_chat w;
     w_moderation := v; w_image := w_image w;
     w_speech := w_speech w; w_files := w_files w; w_trace := w_trace w |}.

Definition set_image (v : list (exn + bytes)) (w : World) : World :=
  {| w_events := w_events w; w_clock := w_clock w; w_random := w_random w;
     w_mic := w_mic w; w_whisper := w_whisper w; w_chat := w_chat w;
     w_moderation := w_moderation w; w_image := v;
     w_speech := w_speech w; w_files := w_files w; w_trace := w_trace w |}.

Definition set_speech (v : list (exn + bytes)) (w : World) : World :=
  {| w_events := w_events w; w_clock := w_clock w; w_random := w_random w;
     w_mic := w_mic w; w_whisper := w_whisper w; w_chat := w_chat w;
     w_moderation := w_moderation w; w_image := w_image w;
     w_speech := v; w_files := w_files w; w_trace := w_trace w |}.

Definition set_files (v : gmap string file) (w : World) : World :=
  {| w_events := w_events w; w_clock := w_clock w; w_random := w_random w;
     w_mic := w_mic w; w_whisper := w_whisper w; w_chat := w_chat w;
     w_moderation := w_moderation w; w_image := w_image w;
     w_speech := w_speech w; w_files := v; w_trace := w_trace w |}.

Definition set_trace (v : list effect) (w : World) : World :=
  {| w_events := w_events w; w_clock := w_clock w; w_random := w_random w;
     w_mic := w_mic w; w_whisper := w_whisper w; w_chat := w_chat w;
     w_moderation := w_moderation w; w_image := w_image w;
     w_speech := w_speech w; w_files := w_files w; w_trace := v |}.

(** ** The monad of the program: state, exceptions, starvation *)

Inductive outcome (A : Type) :=
| Ret (a : A)
| Raise (e : exn)
| Starved.
Arguments Ret {A} a.
Arguments Raise {A} e.
Arguments Starved {A}.

Definition M (A : Type) : Type := World -> outcome A * World.

Definition ret {A} (a : A) : M A := fun w => (Ret a, w).
Definition raise {A} (e : exn) : M A := fun w => (Raise e, w).
Definition starve {A} : M A := fun w => (Starved, w).

Definition bind {A B} (m : M A) (k : A -> M B) : M B :=
  fun w => match m w with
           | (Ret a, w1) => k a w1
           | (Raise e, w1) => (Raise e, w1)
           | (Starved, w1) => (Starved, w1)
           end.

Notation "x <- m ;; k" := (bind m (fun x => k))
  (at level 100, m at next level, right associativity).
Notation "m ;;; k" := (bind m (fun _ => k))
  (at level 100, right associativity).

Definition emit (e : effect) : M unit :=
  fun w => (Ret tt, set_trace (w_trace w ++ [e]) w).

Definition lift {A} (r : exn + A) : M A :=
  match r with inl e => raise e | inr a => ret a end.

(** ** Primitive calls *)

Definition monotonic : M Z := fun w =>
  match w_clock w with
  | [] => (Starved, w)
  | t :: ts => (Ret t, set_trace (w_trace w ++ [Monotonic t]) (set_clock ts w))
  end.

Definition random_draw : M nat := fun w =>
  match w_random w with
  | [] => (Starved, w)
  | r :: rs => (Ret r, set_trace (w_trace w ++ [RandomDraw r]) (set_random rs w))
  end.

(** [random.randint(a, b)]: [ValueError] on an empty range. *)
Definition randint (a b : Z) : M Z :=
  if b <? a then raise ValueError
  else r <- random_draw ;; ret (a + Z.of_nat r mod (b - a + 1)).

(** [random.choice(seq)]: [IndexError] on an empty sequence. *)
Definition choice {A} (l : list A) : M A :=
  match l with
  | [] => raise IndexError
  | x :: _ => r <- random_draw ;; ret (nth (r mod length l)%nat l x)
  end.

Definition event_get : M (list pg_event * (Z -> bool)) := fun w =>
  match w_events w with
  | [] => (Starved, w)
  | q :: qs => (Ret q, set_trace (w_trace w ++ [EventGet]) (set_events qs w))
  end.

Definition record (max_seconds : Z) : M (bytes * bool) := fun w =>
  match w_mic w with
  | [] => (Starved, w)
  | a :: rest =>
      (Ret a, set_trace (w_trace w ++ [Record_ max_seconds]) (set_mic rest w))
  end.

Definition whisper_transcribe (audio : bytes) : M (exn + string) := fun w =>
  match w_whisper w with
  | [] => (Starved, w)
  | a :: rest =>
      (Ret a, set_trace (w_trace w ++ [Transcribe audio]) (set_whisper rest w))
  end.

Definition chat_completion_create (msgs : list message) : M string := fun w =>
  match w_chat w with
  | [] => (Starved, w)
  | a :: rest =>
      lift a (set_trace (w_trace w ++ [ChatCompletion msgs]) (set_chat rest w))
  end.

Definition moderation_create (input : string) : M (exn + bool) := fun w =>
  match w_moderation w with
  | [] => (Starved, w)
  | a :: rest =>
      (Ret a, set_trace (w_trace w ++ [Moderation input]) (set_moderation rest w))
  end.

Definition image_create (prompt : string) (width height : Z) : M (exn + bytes) :=
  fun w =>
  match w_image w with
  | [] => (Starved, w)
  | a :: rest =>
      (Ret a, set_trace (w_trace w ++ [ImageCreate prompt width height])
                (set_image rest w))
  end.

Definition text_to_speech (svc : AzureSpeech) (text : string) : M bytes := fun w =>
  match w_speech w with
  | [] => (Starved, w)
  | a :: rest =>
      lift a (set_trace (w_trace w ++ [TextToSpeech svc text]) (set_speech rest w))
  end.

Definition play (frames : bytes) : M unit := emit (Play frames).

Definition show_status_screen (text : string) : M unit := emit (ShowStatus text).

(** *** Files *)

Definition path_exists (path : string) : M bool := fun w =>
  (Ret (bool_decide (is_Some (w_files w !! path))),
   set_trace (w_trace w ++ [PathExists path]) w).

Definition write_file (path : string) (f : file) : M unit := fun w =>
  (Ret tt, set_trace (w_trace w ++ [WriteFile path f])
             (set_files (<[path := f]> (w_files w)) w)).

(** Writing through the [wave] module: opening creates the file; a parameter
    the module refuses raises [wave.Error] and leaves the file empty. The
    fields of the header are taken to fit: a rate or a data length that the
    32-bit fields cannot hold ([struct.error] in the module) is outside this
    model. *)
Definition wave_write (path : string) (p : AudioPlayer) (data : bytes) : M unit :=
  if (channels p <? 1) || (sample_width p <? 1) || (4 <? sample_width p)
     || (rate p <=? 0)
  then write_file path EmptyFile ;;; raise WaveError
  else write_file path (WaveFile (channels p) (sample_width p) (rate p) data).

(** [f.readframes(f.getnframes())]: the whole frames of the data chunk. *)
Definition whole_frames (nchannels sampwidth : Z) (data : bytes) : bytes :=
  let framesize := nchannels * sampwidth in
  take (Z.to_nat (Z.of_nat (length data) / framesize * framesize)) data.

Definition wave_read (path : string) : M bytes := fun w =>
  let w' := set_trace (w_trace w ++ [ReadFile path]) w in
  match w_files w !! path with
  | None => (Raise FileNotFoundError, w')
  | Some (WaveFile nc sw _ data) => (Ret (whole_frames nc sw data), w')
  | Some EmptyFile => (Raise EOFError, w')
  | Some _ => (Raise WaveError, w')
  end.

(** ** Event polling: [check_for_event] *)

Fixpoint check_for_event (js : option (Z -> bool))
    (generate_button daydream_button shutdown_hold_button
       shutdown_press_button : Z)
    (queue : list pg_event) : option status :=
  match queue with
  | [] => None
  | KEYDOWN k :: rest =>
      match k with
      | K_ESCAPE => Some Quit
      | K_SPACE => Some Next
      | K_d => Some Daydream
      | K_other =>
          check_for_event js generate_button daydream_button
            shutdown_hold_button shutdown_press_button rest
      end
  | JOYBUTTONDOWN button :: rest =>
      match js with
      | Some get_button =>
          if (button =? shutdown_press_button) && get_button shutdown_hold_button
          then Some Quit
          else if button =? generate_button then Some Next
          else if button =? daydream_button then Some Daydream
          else check_for_event js generate_button daydream_button
                 shutdown_hold_button shutdown_press_button rest
      | None =>
          check_for_event js generate_button daydream_button
            shutdown_hold_button shutdown_press_button rest
      end
  | OTHER_EVENT :: rest =>
      check_for_event js generate_button daydream_button
        shutdown_hold_button shutdown_press_button rest
  end.

(** ** [get_random_string] *)

Definition ascii_lowercase : string := "abcdefghijklmnopqrstuvwxyz".

Fixpoint get_random_string (length : nat) : M string :=
  match length with
  | O => ret ""
  | S n =>
      c <- choice (list_ascii_of_string ascii_lowercase) ;;
      s <- get_random_string n ;;
      ret (String c s)
  end.

(** ** [check_moderation]
    The handler of a failed call formats the unbound [response], so the
    exception that leaves the function is [UnboundLocalError]. *)
Definition check_moderation (msg : string) : M bool :=
  response <- moderation_create msg ;;
  match response with
  | inl _ => raise UnboundLocalError
  | inr flagged => ret (negb flagged)
  end.

(** ** [Transcriber.transcribe]; the temporary wave file is not modelled. *)
Definition transcribe (audio_stream : bytes) : M string :=
  response <- whisper_transcribe audio_stream ;;
  match response with
  | inl _ => raise UnboundLocalError
  | inr text => ret text
  end.

(** ** [ChatCharacter] *)

Record ChatCharacter := { system_prompt : string; messages : list message }.

Definition reset (c : ChatCharacter) : ChatCharacter :=
  {| system_prompt := system_prompt c;
     messages := [ {| role := "system"; content := system_prompt c |} ] |}.

Definition new_character (prompt : string) : ChatCharacter :=
  reset {| system_prompt := prompt; messages := [] |}.

Definition get_chat_response (c : ChatCharacter) (m : string)
  : M (ChatCharacter * string) :=
  let asked := messages c ++ [ {| role := "user"; content := m |} ] in
  answer <- chat_completion_create asked ;;
  ret ({| system_prompt := system_prompt c;
          messages := asked ++ [ {| role := "assistant"; content := answer |} ] |},
       answer).

Section Artist.

(** [hashlib.sha256(s.encode("utf-8")).hexdigest()], a parameter of the
    development. *)
Variable sha256_hexdigest : string -> string.

(** ** The speech cache: [speak_text] *)

Definition speak_text (text cache_dir : string) (player : AudioPlayer)
    (speech_svc : AzureSpeech) : M unit :=
  let text_details :=
    language speech_svc +:+ gender speech_svc +:+ voice speech_svc +:+ text in
  let text_details_hash := sha256_hexdigest text_details in
  let filename := path_join cache_dir (text_details_hash +:+ ".wav") in
  cached <- path_exists filename ;;
  (if negb cached
   then audio_data <- text_to_speech speech_svc text ;;
        wave_write filename player audio_data
   else ret tt) ;;;
  frames <- wave_read filename ;;
  play frames.

(** ** The verse arbiter: [get_best_verse] *)

Definition nl : string := String "010"%char "".

(** The loop [for _ in range(num_verses)]. *)
Fixpoint generate_verses (n : nat) (poet : ChatCharacter) (prompt : string)
    (verses : list string) : M (ChatCharacter * list string) :=
  match n with
  | O => ret (poet, verses)
  | S n' =>
      pv <- get_chat_response poet prompt ;;
      generate_verses n' (fst pv) prompt (verses ++ [snd pv])
  end.

(** The loop over [enumerate(verses, start=1)]. *)
Fixpoint enumerate_poems (start : Z) (verses : list string) : string :=
  match verses with
  | [] => ""
  | v :: rest =>
      "Poem " +:+ pretty start +:+ ": " +:+ v +:+ nl
        +:+ enumerate_poems (start + 1) rest
  end.

(** The loop [for c in critic_verdict: if c.isdigit(): ... break]. *)
Fixpoint first_digit (verdict : string) : option ascii :=
  match verdict with
  | EmptyString => None
  | String c rest => if isdigit c then Some c else first_digit rest
  end.

Definition get_best_verse (poet critic : ChatCharacter)
    (base_prompt user_prompt : string) (num_verses : Z)
  : M (ChatCharacter * ChatCharacter * string) :=
  let poet := reset poet in
  let critic := reset critic in
  pv <- generate_verses (Z.to_nat num_verses) poet
          (base_prompt +:+ " " +:+ user_prompt) [] ;;
  let verses := snd pv in
  let critic_message :=
    "Theme: " +:+ user_prompt +:+ nl +:+ enumerate_poems 1 verses in
  cv <- get_chat_response critic critic_message ;;
  match first_digit (snd cv) with
  | Some c =>
      chosen_poem <- lift (int_of_char c) ;;
      verse <- lift (py_index verses (chosen_poem - 1)) ;;
      ret (fst pv, fst cv, verse)
  | None =>
      verse <- choice verses ;;
      ret (fst pv, fst cv, verse)
  end.

(** ** Configuration and session state of [main] *)

Record Config := {
  cache_dir : string;
  output_dir : string;
  speech_svc : AzureSpeech;
  output_sample_rate : Z;
  max_recording_time : Z;
  img_width : Z;
  img_height : Z;
  joystick : bool;
  generate_button : Z;
  daydream_button : Z;
  shutdown_hold_button : Z;
  shutdown_press_button : Z;
  image_base_prompt : string;
  num_verses : Z;
  config_min_daydream_time : Z;
  config_max_daydream_time : Z;
  max_consecutive_daydreams : Z;
  artist_system_prompt : string;
  artist_base_prompt : string;
  poet_system_prompt : string;
  verse_base_prompt : string;
  critic_system_prompt : string;
  welcome_words : list string;
  welcome_lines : list string;
  working_lines : list string;
  finished_lines : list string;
  failed_lines : list string }.

Definition min_daydream_time (cfg : Config) : Z := config_min_daydream_time cfg * 60.
Definition max_daydream_time (cfg : Config) : Z := config_max_daydream_time cfg * 60.

Definition audio_player (cfg : Config) : AudioPlayer :=
  {| channels := 1; sample_width := 2; rate := output_sample_rate cfg |}.

Record Session := {
  start_new : bool;
  daydream : bool;
  consecutive_daydreams : Z;
  msg : string;
  next_change_time : Z;
  ai_artist : ChatCharacter;
  poet : ChatCharacter;
  critic : ChatCharacter }.

Definition on_next (st : Session) : Session :=
  {| start_new := true; daydream := false; consecutive_daydreams := 0;
     msg := msg st; next_change_time := next_change_time st;
     ai_artist := ai_artist st; poet := poet st; critic := critic st |}.

Definition on_daydream (st : Session) : Session :=
  {| start_new := true; daydream := true;
     consecutive_daydreams := consecutive_daydreams st + 1;
     msg := msg st; next_change_time := next_change_time st;
     ai_artist := ai_artist st; poet := poet st; critic := critic st |}.

Definition set_start_new (b : bool) (st : Session) : Session :=
  {| start_new := b; daydream := daydream st;
     consecutive_daydreams := consecutive_daydreams st;
     msg := msg st; next_change_time := next_change_time st;
     ai_artist := ai_artist st; poet := poet st; critic := critic st |}.

Definition set_msg (m : string) (st : Session) : Session :=
  {| start_new := start_new st; daydream := daydream st;
     consecutive_daydreams := consecutive_daydreams st;
     msg := m; next_change_time := next_change_time st;
     ai_artist := ai_artist st; poet := poet st; critic := critic st |}.

Definition set_next_change_time (t : Z) (st : Session) : Session :=
  {| start_new := start_new st; daydream := daydream st;
     consecutive_daydreams := consecutive_daydreams st;
     msg := msg st; next_change_time := t;
     ai_artist := ai_artist st; poet := poet st; critic := critic st |}.

Definition set_ai_artist (c : ChatCharacter) (st : Session) : Session :=
  {| start_new := start_new st; daydream := daydream st;
     consecutive_daydreams := consecutive_daydreams st;
     msg := msg st; next_change_time := next_change_time st;
     ai_artist := c; poet := poet st; critic := critic st |}.

Definition set_poet_critic (p c : ChatCharacter) (st : Session) : Session :=
  {| start_new := start_new st; daydream := daydream st;
     consecutive_daydreams := consecutive_daydreams st;
     msg := msg st; next_change_time := next_change_time st;
     ai_artist := ai_artist st; poet := p; critic := c |}.

Definition speak (cfg : Config) (text : string) : M unit :=
  speak_text text (cache_dir cfg) (audio_player cfg) (speech_svc cfg).

(** [next_change_time = time.monotonic() + random.randint(min, max)] *)
Definition reschedule (cfg : Config) (st : Session) : M Session :=
  now <- monotonic ;;
  r <- randint (min_daydream_time cfg) (max_daydream_time cfg) ;;
  ret (set_next_change_time (now + r) st).

(** ** The session loop of [main] *)

(** *** Event polling (the inner [while True]) *)

Definition js_of (cfg : Config) (buttons : Z -> bool) : option (Z -> bool) :=
  if joystick cfg then Some buttons else None.

(** The status of one poll: the timer check overrides the polled event. *)
Definition poll_status (cfg : Config) (st : Session)
    (q : list pg_event * (Z -> bool)) (now : Z) : option status :=
  let status :=
    check_for_event (js_of cfg (snd q)) (generate_button cfg)
      (daydream_button cfg) (shutdown_hold_button cfg)
      (shutdown_press_button cfg) (fst q) in
  if next_change_time st <=? now then Some Daydream else status.

(** [None] is the [return] of [main] on [Quit]; [Some st] is the [break]. *)
Fixpoint poll_loop (cfg : Config) (st : Session) (fuel : nat)
  : M (option Session) :=
  match fuel with
  | O => starve
  | S fuel' =>
      q <- event_get ;;
      now <- monotonic ;;
      match poll_status cfg st q now with
      | Some Quit => emit PygameQuit ;;; ret None
      | Some Next => ret (Some (on_next st))
      | Some Daydream => ret (Some (on_daydream st))
      | None => poll_loop cfg st fuel'
      end
  end.

(** Every round consumes one entry of the event tape, so the fuel given here
    is never exhausted before the tape is. *)
Definition await_event (cfg : Config) (st : Session) : M (option Session) :=
  fun w => poll_loop cfg st (S (length (w_events w))) w.

(** *** Start of a cycle (the block under [if start_new])
    [inl] is the [continue] of the daydream limit, [inr] goes on. *)
Definition begin_cycle (cfg : Config) (st : Session) : M (Session + Session) :=
  if start_new st then
    if max_consecutive_daydreams cfg <? consecutive_daydreams st then
      st' <- reschedule cfg st ;;
      ret (inl st')
    else
      (if negb (daydream st) then
         show_status_screen " " ;;;
         emit DisplayUpdate ;;;
         word <- choice (welcome_words cfg) ;;
         line <- choice (welcome_lines cfg) ;;
         speak cfg (word +:+ " " +:+ line) ;;;
         show_status_screen "Listening..."
       else ret tt) ;;;
      ret (inr (set_start_new false st))
  else ret (inr st).

(** *** From valid audio to the prompt of the cycle *)
Definition compose_prompt (cfg : Config) (st : Session) (in_stream : bytes)
  : M Session :=
  if negb (daydream st) then
    show_status_screen "Working..." ;;;
    working_phrase <- choice (working_lines cfg) ;;
    speak cfg working_phrase ;;;
    m <- transcribe in_stream ;;
    ret (set_msg m st)
  else
    show_status_screen "Daydreaming..." ;;;
    am <- get_chat_response (ai_artist st)
            (if String.eqb (msg st) ""
             then artist_base_prompt cfg +:+ " something completely random."
             else artist_base_prompt cfg +:+ " " +:+ msg st) ;;
    ret (set_msg (snd am) (set_ai_artist (fst am) st)).

(** *** The failure path, written twice in the source *)
Definition creation_failed (cfg : Config) (st : Session) : M Session :=
  show_status_screen "Creation failed!" ;;;
  failed_phrase <- choice (failed_lines cfg) ;;
  speak cfg failed_phrase ;;;
  ret st.

(** *** Working: from the base name to the [break].
    Font fitting and blitting of the verse are one display effect; the
    response of the image service is taken with its decoded bytes. The
    display is taken to succeed: a verse that no font size fits and image
    bytes that pygame cannot load are outside this model. *)
Definition working (cfg : Config) (st : Session) : M Session :=
  name <- get_random_string 12 ;;
  write_file (path_join (output_dir cfg) (name +:+ ".txt")) (TextFile (msg st)) ;;;
  let img_prompt := image_base_prompt cfg +:+ msg st in
  can_create <- check_moderation img_prompt ;;
  if can_create then
    response <- image_create img_prompt (img_width cfg) (img_height cfg) ;;
    match response with
    | inr img_bytes =>
        pcv <- get_best_verse (poet st) (critic st) (verse_base_prompt cfg)
                 (msg st) (num_verses cfg) ;;
        let verse := snd pcv in
        img_side <- choice ["left"; "right"] ;;
        emit (RenderVerse verse img_side) ;;;
        finished_phrase <- choice (finished_lines cfg) ;;
        (if negb (daydream st) then speak cfg finished_phrase else ret tt) ;;;
        let png := path_join (output_dir cfg) (name +:+ ".png") in
        write_file png (ImageFile img_bytes) ;;;
        emit (BlitImage png) ;;;
        emit DisplayUpdate ;;;
        write_file (path_join (output_dir cfg) (name +:+ "-verse.png"))
          (Screenshot verse img_side img_bytes) ;;;
        reschedule cfg (set_poet_critic (fst (fst pcv)) (snd (fst pcv)) st)
    | inl _ => creation_failed cfg st
    end
  else creation_failed cfg st.

(** *** Listening (the loop [while silent_loops < 10]);
    [attempts] is [10 - silent_loops]. *)
Fixpoint listen (cfg : Config) (st : Session) (attempts : nat) : M Session :=
  match attempts with
  | O => show_status_screen "Ready" ;;; ret st
  | S n =>
      if daydream st then
        st1 <- compose_prompt cfg st [] ;;
        working cfg st1
      else
        rec <- record (max_recording_time cfg) ;;
        if snd rec then
          st1 <- compose_prompt cfg st (fst rec) ;;
          working cfg st1
        else listen cfg st n
  end.

(** *** One cycle: everything after the polling loop *)
Definition cycle (cfg : Config) (st : Session) : M Session :=
  b <- begin_cycle cfg st ;;
  match b with
  | inl st1 => ret st1
  | inr st1 => listen cfg st1 10
  end.

Inductive control := Shutdown | Continue (st : Session).

(** One round of the outer [while True]. *)
Definition iteration (cfg : Config) (st : Session) : M control :=
  p <- await_event cfg st ;;
  match p with
  | None => ret Shutdown
  | Some st1 => st2 <- cycle cfg st1 ;; ret (Continue st2)
  end.

Fixpoint main_loop (cfg : Config) (fuel : nat) (st : Session) : M unit :=
  match fuel with
  | O => starve
  | S fuel' =>
      c <- iteration cfg st ;;
      match c with
      | Shutdown => ret tt
      | Continue st' => main_loop cfg fuel' st'
      end
  end.

Definition initial_session (cfg : Config) : Session :=
  {| start_new := true; daydream := false; consecutive_daydreams := 0;
     msg := ""; next_change_time := 0;
     ai_artist := new_character (artist_system_prompt cfg);
     poet := new_character (poet_system_prompt cfg);
     critic := new_character (critic_system_prompt cfg) |}.

Definition main (cfg : Config) : M unit :=
  show_status_screen "Ready" ;;;
  st <- reschedule cfg (initial_session cfg) ;;
  fun w => main_loop cfg (S (length (w_events w))) st w.

(** * Properties *)

(** ** Reasoning about the monad *)

Lemma bind_Ret_inv {A B} (m : M A) (k : A -> M B) w b w' :
  bind m k w = (Ret b, w') ->
  exists a w1, m w = (Ret a, w1) /\ k a w1 = (Ret b, w').
Proof.
  unfold bind. destruct (m w) as [[a|e|] w1]; intros H; try discriminate.
  eauto.
Qed.

Lemma bind_Ret {A B} (m : M A) (k : A -> M B) w a w1 :
  m w = (Ret a, w1) -> bind m k w = k a w1.
Proof. unfold bind. intros ->. reflexivity. Qed.

Lemma bind_assoc {A B C} (m : M A) (k : A -> M B) (h : B -> M C) w :
  bind (bind m k) h w = bind m (fun a => bind (k a) h) w.
Proof. unfold bind. destruct (m w) as [[a|e|] w1]; reflexivity. Qed.

(** ** What a computation adds to the trace *)

(** [emits P m]: from every world, [m] extends the trace by effects that
    satisfy [P] as a whole. *)
Definition emits (P : list effect -> Prop) {A} (m : M A) : Prop :=
  forall w, exists d, w_trace (snd (m w)) = w_trace w ++ d /\ P d.

Class Closed (P : list effect -> Prop) : Prop := {
  closed_nil : P [];
  closed_app : forall d1 d2, P d1 -> P d2 -> P (d1 ++ d2) }.

(** Traces over an alphabet [Q] of effects. *)
Definition over (Q : effect -> bool) (d : list effect) : Prop :=
  Forall (fun e => Q e = true) d.

#[export] Instance over_closed Q : Closed (over Q).
Proof.
  split; [constructor|]. intros d1 d2 H1 H2. apply Forall_app. auto.
Qed.

Section Emits.
Context (P : list effect -> Prop) `{HP : !Closed P}.

Lemma emits_ret {A} (a : A) : emits P (ret a).
Proof. intros w. exists []. simpl. rewrite app_nil_r. split; [done|apply closed_nil]. Qed.

Lemma emits_raise {A} e : emits P (@raise A e).
Proof. intros w. exists []. simpl. rewrite app_nil_r. split; [done|apply closed_nil]. Qed.

Lemma emits_starve {A} : emits P (@starve A).
Proof. intros w. exists []. simpl. rewrite app_nil_r. split; [done|apply closed_nil]. Qed.

Lemma emits_lift {A} (r : exn + A) : emits P (lift r).
Proof. destruct r; [apply emits_raise|apply emits_ret]. Qed.

Lemma emits_bind {A B} (m : M A) (k : A -> M B) :
  emits P m -> (forall a, emits P (k a)) -> emits P (bind m k).
Proof.
  intros Hm Hk w. unfold bind.
  destruct (Hm w) as (d1 & E1 & P1).
  destruct (m w) as [[a|e|] w1]; simpl in *; eauto.
  destruct (Hk a w1) as (d2 & E2 & P2).
  exists (d1 ++ d2). rewrite E2, E1, app_assoc. split; [done|].
  by apply closed_app.
Qed.

Lemma emits_emit e : P [e] -> emits P (emit e).
Proof. intros He w. exists [e]. done. Qed.

End Emits.


(** *** The alphabets of the primitive calls *)

Definition is_draw (e : effect) : bool :=
  match e with RandomDraw _ => true | _ => false end.


Definition is_poll (e : effect) : bool :=
  match e with EventGet | Monotonic _ | PygameQuit => true | _ => false end.

Definition is_status (e : effect) : bool :=
  match e with ShowStatus _ => true | _ => false end.

(** The effects of [speak_text]: the cache look-up, the synthesis, the wave
    file written and read, the playback. *)
Definition is_speech (e : effect) : bool :=
  match e with
  | PathExists _ | TextToSpeech _ _ | ReadFile _ | Play _ => true
  | WriteFile _ (WaveFile _ _ _ _) | WriteFile _ EmptyFile => true
  | _ => false
  end.

Lemma over_one (Q : effect -> bool) e : Q e = true -> over Q [e].
Proof. intros H. by repeat constructor. Qed.

Lemma emits_monotonic Q : (forall t, Q (Monotonic t) = true) -> emits (over Q) monotonic.
Proof.
  intros H w. unfold monotonic. destruct (w_clock w) as [|t ts]; simpl.
  - exists []. rewrite app_nil_r. split; [done|constructor].
  - exists [Monotonic t]. split; [done|by apply over_one].
Qed.

Lemma emits_random_draw Q :
  (forall r, Q (RandomDraw r) = true) -> emits (over Q) random_draw.
Proof.
  intros H w. unfold random_draw. destruct (w_random w) as [|t ts]; simpl.
  - exists []. rewrite app_nil_r. split; [done|constructor].
  - exists [RandomDraw t]. split; [done|by apply over_one].
Qed.

Lemma emits_randint Q a b :
  (forall r, Q (RandomDraw r) = true) -> emits (over Q) (randint a b).
Proof.
  intros H. unfold randint. destruct (b <? a); [apply emits_raise; apply _|].
  apply emits_bind; [apply _|by apply emits_random_draw|].
  intros r. apply emits_ret; apply _.
Qed.

Lemma emits_choice Q {A} (l : list A) :
  (forall r, Q (RandomDraw r) = true) -> emits (over Q) (choice l).
Proof.
  intros H. unfold choice. destruct l; [apply emits_raise; apply _|].
  apply emits_bind; [apply _|by apply emits_random_draw|].
  intros r. apply emits_ret; apply _.
Qed.

Lemma get_random_string_S n :
  get_random_string (S n) =
  (c <- choice (list_ascii_of_string ascii_lowercase) ;;
   s <- get_random_string n ;;
   ret (String c s)).
Proof. reflexivity. Qed.

Lemma emits_get_random_string Q n :
  (forall r, Q (RandomDraw r) = true) -> emits (over Q) (get_random_string n).
Proof.
  intros H. induction n as [|n IH]; [apply emits_ret; apply _|].
  rewrite get_random_string_S.
  apply emits_bind; [apply _|by apply emits_choice|]. intros c.
  apply emits_bind; [apply _|done|]. intros s. apply emits_ret; apply _.
Qed.

(** One step of a primitive: either nothing or one effect is appended. *)
Ltac one_effect :=
  rewrite <- ?app_assoc;
  first
    [ exists []; rewrite app_nil_r; split; [reflexivity|constructor]
    | eexists; split; [reflexivity|simpl; repeat constructor; auto] ].

Lemma emits_event_get Q : Q EventGet = true -> emits (over Q) event_get.
Proof.
  intros H w. unfold event_get. destruct (w_events w); simpl; one_effect.
Qed.

Lemma emits_record Q s : (forall t, Q (Record_ t) = true) -> emits (over Q) (record s).
Proof. intros H w. unfold record. destruct (w_mic w); simpl; one_effect. Qed.

Lemma emits_transcribe Q a :
  (forall b, Q (Transcribe b) = true) -> emits (over Q) (transcribe a).
Proof.
  intros H w. unfold transcribe, bind, whisper_transcribe.
  destruct (w_whisper w) as [|[e|t] ?]; simpl; one_effect.
Qed.

Lemma emits_chat_completion_create Q msgs :
  (forall m, Q (ChatCompletion m) = true) ->
  emits (over Q) (chat_completion_create msgs).
Proof.
  intros H w. unfold chat_completion_create.
  destruct (w_chat w) as [|[e|t] ?]; simpl; one_effect.
Qed.

Lemma emits_check_moderation Q m :
  (forall t, Q (Moderation t) = true) -> emits (over Q) (check_moderation m).
Proof.
  intros H w. unfold check_moderation, bind, moderation_create.
  destruct (w_moderation w) as [|[e|t] ?]; simpl; one_effect.
Qed.

Lemma emits_image_create Q p a b :
  (forall p a b, Q (ImageCreate p a b) = true) -> emits (over Q) (image_create p a b).
Proof.
  intros H w. unfold image_create. destruct (w_image w); simpl; one_effect.
Qed.

Lemma emits_show_status_screen Q t :
  (forall t, Q (ShowStatus t) = true) -> emits (over Q) (show_status_screen t).
Proof. intros H w. unfold show_status_screen, emit. simpl. one_effect. Qed.

Lemma emits_write_file Q path f :
  Q (WriteFile path f) = true -> emits (over Q) (write_file path f).
Proof. intros H w. unfold write_file. simpl. one_effect. Qed.

Lemma emits_get_chat_response Q c m :
  (forall m, Q (ChatCompletion m) = true) -> emits (over Q) (get_chat_response c m).
Proof.
  intros H. unfold get_chat_response.
  apply emits_bind; [apply _|by apply emits_chat_completion_create|].
  intros a. apply emits_ret; apply _.
Qed.

Lemma emits_speak_text Q text dir p svc :
  (forall e, is_speech e = true -> Q e = true) ->
  emits (over Q) (speak_text text dir p svc).
Proof.
  intros H w. unfold speak_text.
  set (filename := path_join dir _).
  unfold bind at 1. unfold path_exists at 1. cbn iota.
  set (w1 := set_trace _ w).
  assert (Hread : forall w2 : World, exists d,
    w_trace (snd ((frames <- wave_read filename ;; play frames) w2))
      = w_trace w2 ++ d /\ over Q d).
  { intros w2. unfold bind, wave_read, play, emit.
    destruct (w_files w2 !! filename) as [[]|]; simpl; one_effect. }
  destruct (bool_decide (is_Some (w_files w !! filename))); cbn [negb].
  - unfold bind at 1. cbn [ret].
    destruct (Hread w1) as (d & E & Hd).
    exists (PathExists filename :: d). rewrite E. subst w1. simpl.
    rewrite <- app_assoc. split; [done|]. constructor; auto.
  - unfold bind at 1. unfold bind at 1. unfold text_to_speech.
    change (w_speech w1) with (w_speech w).
    destruct (w_speech w) as [|[e|audio] rest]; simpl.
    + one_effect.
    + one_effect.
    + unfold wave_write.
      destruct (_ || _); simpl.
      * one_effect.
      * match goal with |- context [bind _ _ ?w2] =>
          destruct (Hread w2) as (d & E & Hd) end.
        eexists (_ :: _ :: _ :: d). rewrite E. simpl. rewrite <- !app_assoc.
        split; [reflexivity|]. repeat constructor; auto.
Qed.



Ltac emits_step :=
  first
    [ apply emits_ret; apply _
    | apply emits_raise; apply _
    | apply emits_starve; apply _
    | apply emits_lift; apply _
    | apply emits_emit; first [apply over_one; reflexivity|apply _]
    | apply emits_monotonic; auto
    | apply emits_randint; auto
    | apply emits_choice; auto
    | apply emits_get_random_string; auto
    | apply emits_event_get; auto
    | apply emits_record; auto
    | apply emits_transcribe; auto
    | apply emits_check_moderation; auto
    | apply emits_image_create; auto
    | apply emits_show_status_screen; auto
    | apply emits_write_file; auto
    | apply emits_chat_completion_create; auto
    | apply emits_get_chat_response; auto
    | apply emits_speak_text; auto
    | apply emits_bind; [apply _| |intros ?] ].

Lemma emits_generate_verses Q n poet prompt verses :
  (forall m, Q (ChatCompletion m) = true) ->
  emits (over Q) (generate_verses n poet prompt verses).
Proof.
  intros H. revert poet verses.
  induction n as [|n IH]; intros poet verses; cbn [generate_verses];
    repeat emits_step. apply IH.
Qed.

Lemma emits_get_best_verse Q poet critic base user n :
  (forall m, Q (ChatCompletion m) = true) ->
  (forall r, Q (RandomDraw r) = true) ->
  emits (over Q) (get_best_verse poet critic base user n).
Proof.
  intros H1 H2. unfold get_best_verse.
  apply emits_bind; [apply _|by apply emits_generate_verses|intros pv].
  apply emits_bind; [apply _|by apply emits_get_chat_response|intros cv].
  destruct (first_digit (snd cv)); repeat emits_step.
Qed.

Lemma emits_reschedule Q cfg st :
  (forall t, Q (Monotonic t) = true) -> (forall r, Q (RandomDraw r) = true) ->
  emits (over Q) (reschedule cfg st).
Proof. intros H1 H2. unfold reschedule. repeat emits_step. Qed.

(** The failure path: the failure status, one draw, the narration. *)
Definition is_failure (e : effect) : bool :=
  is_status e || is_draw e || is_speech e.

Lemma emits_creation_failed Q cfg st :
  (forall e, is_failure e = true -> Q e = true) ->
  emits (over Q) (creation_failed cfg st).
Proof.
  intros H. unfold creation_failed.
  assert (forall e, is_speech e = true -> Q e = true).
  { intros e He. apply H. unfold is_failure. rewrite He. apply orb_true_r. }
  assert (forall r, Q (RandomDraw r) = true) by (intros; by apply H).
  assert (forall t, Q (ShowStatus t) = true) by (intros; by apply H).
  repeat emits_step.
Qed.

(** ** The speech cache *)

Fixpoint synthesis_calls (d : list effect) : nat :=
  match d with
  | [] => 0
  | TextToSpeech _ _ :: d' => S (synthesis_calls d')
  | _ :: d' => synthesis_calls d'
  end.

Fixpoint played (d : list effect) : list bytes :=
  match d with
  | [] => []
  | Play frames :: d' => frames :: played d'
  | _ :: d' => played d'
  end.

Lemma synthesis_calls_app d1 d2 :
  synthesis_calls (d1 ++ d2) = (synthesis_calls d1 + synthesis_calls d2)%nat.
Proof. induction d1 as [|[] d1 IH]; simpl; auto. Qed.

Definition cache_file (text dir : string) (svc : AzureSpeech) : string :=
  path_join dir
    (sha256_hexdigest (language svc +:+ gender svc +:+ voice svc +:+ text)
       +:+ ".wav").

(** A hit: no synthesis, the stored frames are played. *)
Lemma speak_text_hit text dir p svc w nc sw fr data :
  w_files w !! cache_file text dir svc = Some (WaveFile nc sw fr data) ->
  speak_text text dir p svc w =
  (Ret tt,
   set_trace (w_trace w ++ [PathExists (cache_file text dir svc);
                            ReadFile (cache_file text dir svc);
                            Play (whole_frames nc sw data)]) w).
Proof.
  intros Hf. unfold speak_text. fold (cache_file text dir svc).
  unfold bind, path_exists, wave_read, play, emit. rewrite Hf.
  rewrite bool_decide_eq_true_2 by eauto. simpl. rewrite Hf. simpl.
  by rewrite <- !app_assoc.
Qed.

(** One call: at most one synthesis, and a call that returns has played the
    frames of a wave file that is in the cache afterwards. *)
Lemma speak_text_once text dir p svc w :
  exists d,
    w_trace (snd (speak_text text dir p svc w)) = w_trace w ++ d /\
    (synthesis_calls d <= 1)%nat /\
    (fst (speak_text text dir p svc w) = Ret tt ->
     exists nc sw fr data,
       (w_files (snd (speak_text text dir p svc w)) !! cache_file text dir svc
          = Some (WaveFile nc sw fr data)) /\
       played d = [whole_frames nc sw data]).
Proof.
  destruct (w_files w !! cache_file text dir svc) as [f|] eqn:Hf.
  - destruct f as [|t|i|nc sw fr data|v s i];
      try (unfold speak_text; fold (cache_file text dir svc);
           unfold bind, path_exists, wave_read, play, emit; rewrite Hf;
           rewrite bool_decide_eq_true_2 by eauto; simpl; rewrite Hf; simpl;
           eexists [_; _]; rewrite <- !app_assoc;
           split; [reflexivity|split; [simpl; lia|discriminate]]).
    rewrite (speak_text_hit _ _ _ _ _ _ _ _ _ Hf). simpl.
    eexists. split; [reflexivity|]. split; [simpl; lia|].
    intros _. do 4 eexists. split; [exact Hf|reflexivity].
  - unfold speak_text. fold (cache_file text dir svc).
    unfold bind, path_exists, text_to_speech. rewrite Hf.
    rewrite bool_decide_eq_false_2 by (intros [? ?]; discriminate). simpl.
    destruct (w_speech w) as [|[e|audio] rest]; simpl.
    + eexists [_]. split; [reflexivity|split; [simpl; lia|discriminate]].
    + eexists [_; _]. rewrite <- !app_assoc.
      split; [reflexivity|split; [simpl; lia|discriminate]].
    + unfold wave_write. destruct (_ || _); simpl.
      * eexists [_; _; _]. rewrite <- !app_assoc.
        split; [reflexivity|split; [simpl; lia|discriminate]].
      * unfold wave_read, play, emit. simpl. rewrite lookup_insert_eq. simpl.
        eexists [_; _; _; _; _]. rewrite <- !app_assoc.
        split; [reflexivity|split; [simpl; lia|]].
        intros _. do 4 eexists. rewrite lookup_insert_eq. split; reflexivity.
Qed.

(** C2. Two successive calls of [speak_text] for the same language, gender,
    voice and text issue at most one speech-synthesis call in total; if the
    first call returns, the second is a cache hit that synthesizes nothing and
    returns, and both calls play the same audio bytes. *)
Theorem speak_text_twice text dir p svc w :
  let first := speak_text text dir p svc w in
  let second := speak_text text dir p svc (snd first) in
  exists d1,
    w_trace (snd first) = w_trace w ++ d1 /\
    (synthesis_calls d1 <= 1)%nat /\
    (fst first = Ret tt ->
     exists d2 frames,
       w_trace (snd second) = w_trace (snd first) ++ d2 /\
       fst second = Ret tt /\
       synthesis_calls d2 = 0%nat /\
       (synthesis_calls (d1 ++ d2) <= 1)%nat /\
       played d1 = [frames] /\ played d2 = [frames]).
Proof.
  intros first second.
  destruct (speak_text_once text dir p svc w) as (d1 & E1 & S1 & R1).
  fold first in E1, R1.
  exists d1. split; [exact E1|]. split; [exact S1|].
  intros Hret. destruct (R1 Hret) as (nc & sw & fr & data & Hf & Hp).
  subst second. rewrite (speak_text_hit _ _ _ _ _ _ _ _ _ Hf). simpl.
  eexists. exists (whole_frames nc sw data).
  split; [reflexivity|]. split; [reflexivity|]. split; [reflexivity|].
  split; [rewrite synthesis_calls_app; simpl; lia|].
  split; [exact Hp|reflexivity].
Qed.

(** ** The verse arbiter *)

(** With [n] verses and then a verdict on the chat tape, the [n] calls of the
    poet collect the verses in order. *)
Lemma generate_verses_run (vs : list string) poet prompt acc w rest :
  w_chat w = map inr vs ++ rest ->
  exists poet' w',
    generate_verses (length vs) poet prompt acc w = (Ret (poet', acc ++ vs), w')
    /\ w_chat w' = rest /\ w_random w' = w_random w.
Proof.
  revert poet acc w. induction vs as [|v vs IH]; intros poet acc w Hw.
  - exists poet, w. simpl. rewrite app_nil_r. auto.
  - cbn [length generate_verses].
    unfold get_chat_response at 1, chat_completion_create at 1.
    unfold bind at 1. unfold bind at 1. rewrite Hw. cbn [map app lift ret fst snd].
    match goal with |- context [generate_verses _ ?p _ _ ?w1] =>
      destruct (IH p (acc ++ [v]) w1) as (poet' & w' & E & Hc & Hr);
        [reflexivity|] end.
    exists poet', w'. rewrite E, <- app_assoc. auto.
Qed.

(** The selection once the verses [vs] and the [verdict] are known. *)
Definition select_verse (vs : list string) (verdict : string) : M string :=
  match first_digit verdict with
  | Some c =>
      chosen_poem <- lift (int_of_char c) ;;
      lift (py_index vs (chosen_poem - 1))
  | None => choice vs
  end.

Lemma get_best_verse_run poet critic base user n (vs : list string) verdict w rest :
  w_chat w = map inr vs ++ inr verdict :: rest ->
  length vs = Z.to_nat n ->
  exists poet' critic' w1,
    w_random w1 = w_random w /\ w_chat w1 = rest /\
    get_best_verse poet critic base user n w =
    (verse <- select_verse vs verdict ;; ret (poet', critic', verse)) w1.
Proof.
  intros Hw Hn. unfold get_best_verse. rewrite <- Hn.
  destruct (generate_verses_run vs (reset poet) (base +:+ " " +:+ user) [] w
              (inr verdict :: rest) Hw) as (poet' & w' & E & Hc & Hr).
  rewrite (bind_Ret _ _ _ _ _ E). cbn [snd fst app].
  unfold get_chat_response, chat_completion_create.
  unfold bind at 1. unfold bind at 1. rewrite Hc. cbn [lift ret fst snd].
  eexists poet', _, _. split; [|split].
  3: { unfold select_verse. destruct (first_digit verdict); [|reflexivity].
       rewrite bind_assoc. reflexivity. }
  - exact Hr.
  - reflexivity.
Qed.

(** The verdict names an existing poem: that poem is returned. *)
Lemma get_best_verse_in_range poet critic base user n (vs : list string)
    verdict w rest c d :
  w_chat w = map inr vs ++ inr verdict :: rest ->
  length vs = Z.to_nat n ->
  first_digit verdict = Some c ->
  int_of_char c = inr d ->
  1 <= d <= Z.of_nat (length vs) ->
  exists poet' critic' w' v,
    get_best_verse poet critic base user n w = (Ret (poet', critic', v), w')
    /\ vs !! Z.to_nat (d - 1) = Some v.
Proof.
  intros Hw Hn Hc Hd Hr.
  destruct (get_best_verse_run poet critic base user n vs verdict w rest Hw Hn)
    as (poet' & critic' & w1 & _ & _ & E).
  rewrite E. unfold select_verse. rewrite Hc, Hd. unfold bind. cbn [lift ret].
  unfold py_index.
  replace ((d - 1 <? - Z.of_nat (length vs)) || (Z.of_nat (length vs) <=? d - 1))
    with false by (symmetry; apply orb_false_iff; split;
                   [apply Z.ltb_ge|apply Z.leb_gt]; lia).
  replace (d - 1 <? 0) with false by (symmetry; apply Z.ltb_ge; lia).
  destruct (vs !! Z.to_nat (d - 1)) as [v|] eqn:Hv.
  - cbn. eauto 10.
  - apply lookup_ge_None in Hv. lia.
Qed.

(** No digit in the verdict: a random verse of the list is returned. *)
Lemma get_best_verse_no_digit poet critic base user n (vs : list string)
    verdict w rest r rs :
  w_chat w = map inr vs ++ inr verdict :: rest ->
  length vs = Z.to_nat n ->
  first_digit verdict = None ->
  1 <= n ->
  w_random w = r :: rs ->
  exists poet' critic' w' v,
    get_best_verse poet critic base user n w = (Ret (poet', critic', v), w')
    /\ v ∈ vs.
Proof.
  intros Hw Hn Hc Hpos Hrand.
  destruct (get_best_verse_run poet critic base user n vs verdict w rest Hw Hn)
    as (poet' & critic' & w1 & Hr & _ & E).
  rewrite E. unfold select_verse. rewrite Hc.
  destruct vs as [|v0 vs']; [simpl in Hn; lia|].
  unfold choice, bind, random_draw. rewrite Hr, Hrand. cbn [ret].
  do 4 eexists. split; [reflexivity|].
  apply list_elem_of_In, nth_In, Nat.mod_upper_bound. discriminate.
Qed.

(** The verdict names a poem beyond the list: the look-up raises. *)
Lemma get_best_verse_out_of_range poet critic base user n (vs : list string)
    verdict w rest c d :
  w_chat w = map inr vs ++ inr verdict :: rest ->
  length vs = Z.to_nat n ->
  first_digit verdict = Some c ->
  int_of_char c = inr d ->
  Z.of_nat (length vs) < d ->
  py_index vs (d - 1) = inl IndexError /\
  fst (get_best_verse poet critic base user n w) = Raise IndexError.
Proof.
  intros Hw Hn Hc Hd Hr.
  assert (Hi : py_index vs (d - 1) = inl IndexError).
  { unfold py_index.
    replace (Z.of_nat (length vs) <=? d - 1) with true
      by (symmetry; apply Z.leb_le; lia).
    by rewrite orb_true_r. }
  split; [exact Hi|].
  destruct (get_best_verse_run poet critic base user n vs verdict w rest Hw Hn)
    as (poet' & critic' & w1 & _ & _ & E).
  rewrite E. unfold select_verse. rewrite Hc, Hd. unfold bind. cbn [lift ret].
  rewrite Hi. reflexivity.
Qed.

(** The first digit is not a decimal one: [int] raises. *)
Lemma get_best_verse_not_decimal poet critic base user n (vs : list string)
    verdict w rest c :
  w_chat w = map inr vs ++ inr verdict :: rest ->
  length vs = Z.to_nat n ->
  first_digit verdict = Some c ->
  isdecimal c = false ->
  fst (get_best_verse poet critic base user n w) = Raise ValueError.
Proof.
  intros Hw Hn Hc Hd.
  destruct (get_best_verse_run poet critic base user n vs verdict w rest Hw Hn)
    as (poet' & critic' & w1 & _ & _ & E).
  rewrite E. unfold select_verse, int_of_char. rewrite Hc, Hd. reflexivity.
Qed.

(** ** What a computation returns *)

Definition returns {A} (R : A -> Prop) (m : M A) : Prop :=
  forall w a w', m w = (Ret a, w') -> R a.

Lemma emits_bind_returns (P : list effect -> Prop) `{!Closed P} {A B}
    (R : A -> Prop) (m : M A) (k : A -> M B) :
  emits P m -> returns R m -> (forall a, R a -> emits P (k a)) ->
  emits P (bind m k).
Proof.
  intros Hm HR Hk w. unfold bind.
  destruct (Hm w) as (d1 & E1 & P1).
  destruct (m w) as [[a|e|] w1] eqn:Em; simpl in *; eauto.
  destruct (Hk a (HR _ _ _ Em) w1) as (d2 & E2 & P2).
  exists (d1 ++ d2). rewrite E2, E1, app_assoc. split; [done|].
  by apply closed_app.
Qed.

(** Inversion of a computation that returned. *)
Ltac inv_ret :=
  repeat match goal with
  | H : bind _ _ _ = (Ret _, _) |- _ =>
      apply bind_Ret_inv in H; destruct H as (? & ? & ? & H)
  | H : ret _ _ = (Ret _, _) |- _ => injection H as <- <-
  | H : raise _ _ = (Ret _, _) |- _ => discriminate H
  | H : starve _ = (Ret _, _) |- _ => discriminate H
  | H : (if ?b then _ else _) _ = (Ret _, _) |- _ => destruct b eqn:?
  | H : match ?x with _ => _ end _ = (Ret _, _) |- _ => destruct x eqn:?
  end.

(** The trigger of a cycle, as the session records it. *)
Definition same_trigger (st st' : Session) : Prop :=
  daydream st' = daydream st /\
  consecutive_daydreams st' = consecutive_daydreams st.

Lemma same_trigger_refl st : same_trigger st st.
Proof. by split. Qed.

Lemma same_trigger_trans st1 st2 st3 :
  same_trigger st1 st2 -> same_trigger st2 st3 -> same_trigger st1 st3.
Proof. intros [? ?] [? ?]. split; congruence. Qed.

Lemma reschedule_returns cfg st :
  returns (fun st' => exists t, st' = set_next_change_time t st) (reschedule cfg st).
Proof. intros w st' w' H. unfold reschedule in H. inv_ret. eauto. Qed.

Lemma creation_failed_returns cfg st :
  returns (fun st' => st' = st) (creation_failed cfg st).
Proof. intros w st' w' H. unfold creation_failed in H. inv_ret. reflexivity. Qed.

Lemma compose_prompt_returns cfg st s :
  returns (same_trigger st) (compose_prompt cfg st s).
Proof.
  intros w st' w' H. unfold compose_prompt in H. inv_ret; by split.
Qed.

Lemma working_returns cfg st : returns (same_trigger st) (working cfg st).
Proof.
  intros w st' w' H. unfold working in H.
  apply bind_Ret_inv in H as (name & w1 & _ & H).
  apply bind_Ret_inv in H as (? & w2 & _ & H).
  apply bind_Ret_inv in H as (can_create & w3 & _ & H).
  destruct can_create.
  - apply bind_Ret_inv in H as ([e|img] & w4 & _ & H).
    + apply creation_failed_returns in H. subst. apply same_trigger_refl.
    + repeat match type of H with
             | bind _ _ _ = _ => apply bind_Ret_inv in H as (? & ? & _ & H)
             end.
      apply reschedule_returns in H as [t ->]. by split.
  - apply creation_failed_returns in H. subst. apply same_trigger_refl.
Qed.

Lemma listen_returns cfg st n : returns (same_trigger st) (listen cfg st n).
Proof.
  induction n as [|n IH]; intros w st' w' H; cbn [listen] in H.
  - inv_ret. apply same_trigger_refl.
  - destruct (daydream st) eqn:Hd.
    + apply bind_Ret_inv in H as (st1 & w1 & H1 & H).
      apply compose_prompt_returns in H1. apply working_returns in H.
      eapply same_trigger_trans; eauto.
    + apply bind_Ret_inv in H as (rec & w1 & _ & H).
      destruct (snd rec).
      * apply bind_Ret_inv in H as (st1 & w2 & H1 & H).
        apply compose_prompt_returns in H1. apply working_returns in H.
        eapply same_trigger_trans; eauto.
      * eapply IH; eauto.
Qed.

Lemma begin_cycle_returns cfg st :
  returns (fun b => match b with
                    | inl st' => same_trigger st st' /\
                        max_consecutive_daydreams cfg < consecutive_daydreams st
                    | inr st' => same_trigger st st'
                    end) (begin_cycle cfg st).
Proof.
  intros w b w' H. unfold begin_cycle in H.
  destruct (start_new st).
  - destruct (max_consecutive_daydreams cfg <? consecutive_daydreams st) eqn:Hlt.
    + apply bind_Ret_inv in H as (st1 & w1 & H1 & H).
      apply reschedule_returns in H1 as [t ->]. inv_ret.
      split; [by split|by apply Z.ltb_lt].
    + apply bind_Ret_inv in H as (? & w1 & _ & H). inv_ret. by split.
  - inv_ret. by split.
Qed.

Lemma cycle_returns cfg st : returns (same_trigger st) (cycle cfg st).
Proof.
  intros w st' w' H. unfold cycle in H.
  apply bind_Ret_inv in H as (b & w1 & H1 & H).
  apply begin_cycle_returns in H1. destruct b as [st1|st1].
  - inv_ret. tauto.
  - apply listen_returns in H. eapply same_trigger_trans; eauto.
Qed.

(** ** Event polling *)

Definition polled_event (cfg : Config) (q : list pg_event * (Z -> bool))
  : option status :=
  check_for_event (js_of cfg (snd q)) (generate_button cfg)
    (daydream_button cfg) (shutdown_hold_button cfg)
    (shutdown_press_button cfg) (fst q).

(** One round of the polling loop on a non-empty event tape and clock. *)
Lemma poll_loop_step cfg st fuel w q evs now cl :
  w_events w = q :: evs ->
  w_clock w = now :: cl ->
  poll_loop cfg st (S fuel) w =
  let w2 := set_trace (w_trace w ++ [EventGet; Monotonic now])
              (set_clock cl (set_events evs w)) in
  match poll_status cfg st q now with
  | Some Quit => (Ret None, set_trace (w_trace w2 ++ [PygameQuit]) w2)
  | Some Next => (Ret (Some (on_next st)), w2)
  | Some Daydream => (Ret (Some (on_daydream st)), w2)
  | None => poll_loop cfg st fuel w2
  end.
Proof.
  intros He Hc. cbn [poll_loop]. unfold bind at 1, event_get at 1. rewrite He.
  unfold bind at 1, monotonic at 1. cbn [w_clock set_trace set_events].
  rewrite Hc. cbn -[poll_loop poll_status]. rewrite <- app_assoc. cbn [app].
  destruct (poll_status cfg st q now) as [[]|]; reflexivity.
Qed.

(** A round that finds the tape or the clock exhausted starves. *)
Lemma poll_loop_starved cfg st fuel w :
  w_events w = [] \/ (exists q evs, w_events w = q :: evs /\ w_clock w = []) ->
  exists d, fst (poll_loop cfg st (S fuel) w) = Starved /\
            w_trace (snd (poll_loop cfg st (S fuel) w)) = w_trace w ++ d /\
            over is_poll d /\
            w_events (snd (poll_loop cfg st (S fuel) w)) = tl (w_events w).
Proof.
  intros [He|(q & evs & He & Hc)]; cbn [poll_loop];
    unfold bind, event_get, monotonic; rewrite He; simpl.
  - exists []. rewrite app_nil_r. repeat split; auto. constructor.
  - rewrite Hc. simpl. exists [EventGet]. repeat split; auto. by apply over_one.
Qed.

Lemma poll_loop_spec cfg st fuel w :
  exists d,
    w_trace (snd (poll_loop cfg st fuel w)) = w_trace w ++ d /\
    over is_poll d /\
    (exists k, w_events (snd (poll_loop cfg st fuel w)) = drop k (w_events w)) /\
    (forall st1, fst (poll_loop cfg st fuel w) = Ret (Some st1) ->
       exists q now,
         q ∈ w_events w /\
         ((poll_status cfg st q now = Some Daydream /\ st1 = on_daydream st) \/
          (poll_status cfg st q now = Some Next /\ st1 = on_next st))).
Proof.
  revert w. induction fuel as [|fuel IH]; intros w.
  { exists []. simpl. rewrite app_nil_r. repeat split; [constructor|by exists 0%nat|].
    discriminate. }
  destruct (w_events w) as [|q evs] eqn:He.
  { destruct (poll_loop_starved cfg st fuel w) as (d & Hs & Ht & Hd & Hev); [auto|].
    exists d. rewrite Hs, Ht, Hev, He. repeat split; auto; [by exists 0%nat|].
    discriminate. }
  destruct (w_clock w) as [|now cl] eqn:Hc.
  { destruct (poll_loop_starved cfg st fuel w) as (d & Hs & Ht & Hd & Hev); [eauto|].
    exists d. rewrite Hs, Ht, Hev, He. repeat split; auto; [by exists 1%nat|].
    discriminate. }
  rewrite (poll_loop_step _ _ _ _ _ _ _ _ He Hc). cbv zeta.
  destruct (poll_status cfg st q now) as [[]|] eqn:Hp.
  - eexists [_; _; _]. cbn -[drop]. rewrite <- app_assoc.
    repeat split; [by repeat constructor|by exists 1%nat|discriminate].
  - eexists [_; _]. cbn -[drop].
    repeat split; [by repeat constructor|by exists 1%nat|].
    intros st1 [= <-]. exists q, now. split; [left|]; auto.
  - eexists [_; _]. cbn -[drop].
    repeat split; [by repeat constructor|by exists 1%nat|].
    intros st1 [= <-]. exists q, now. split; [left|]; auto.
  - match goal with |- context [poll_loop cfg st fuel ?w2] =>
      destruct (IH w2) as (d & Ht & Hd & [k Hk] & Hr) end.
    exists ([EventGet; Monotonic now] ++ d). rewrite Ht. cbn [w_trace set_trace].
    rewrite <- app_assoc. split; [reflexivity|].
    split; [apply Forall_app; split; [by repeat constructor|exact Hd]|].
    split; [exists (S k); rewrite Hk; reflexivity|].
    intros st1 H1. destruct (Hr st1 H1) as (q' & now' & Hin & Hcase).
    exists q', now'. split; [right; exact Hin|exact Hcase].
Qed.

(** A polling loop that returns has found its status at one poll, after
    polls that found none: the event tape and the clock split at that poll,
    one queue and one reading being used per poll, and the status of that
    poll, at that reading, decides how the loop is left. *)
Lemma poll_loop_returns cfg st fuel w r w' :
  poll_loop cfg st fuel w = (Ret r, w') ->
  exists idle readings q evs now cl,
    w_events w = idle ++ q :: evs /\
    w_clock w = readings ++ now :: cl /\
    Forall2 (fun q t => poll_status cfg st q t = None) idle readings /\
    w_events w' = evs /\ w_clock w' = cl /\
    w_trace w' =
      w_trace w
      ++ flat_map (fun t => [EventGet; Monotonic t]) (readings ++ [now])
      ++ match r with None => [PygameQuit] | Some _ => [] end /\
    match r with
    | None => poll_status cfg st q now = Some Quit
    | Some st1 =>
        (poll_status cfg st q now = Some Daydream /\ st1 = on_daydream st) \/
        (poll_status cfg st q now = Some Next /\ st1 = on_next st)
    end.
Proof.
  revert w. induction fuel as [|fuel IH]; intros w H; [discriminate H|].
  destruct (w_events w) as [|q evs] eqn:He.
  { destruct (poll_loop_starved cfg st fuel w) as (d & Hs & _); [auto|].
    rewrite H in Hs. discriminate Hs. }
  destruct (w_clock w) as [|now cl] eqn:Hc.
  { destruct (poll_loop_starved cfg st fuel w) as (d & Hs & _); [eauto|].
    rewrite H in Hs. discriminate Hs. }
  rewrite (poll_loop_step _ _ _ _ _ _ _ _ He Hc) in H. cbv zeta in H.
  destruct (poll_status cfg st q now) as [[]|] eqn:Hp.
  - injection H as <- <-. exists [], [], q, evs, now, cl. cbn.
    rewrite <- app_assoc. repeat split; auto.
  - injection H as <- <-. exists [], [], q, evs, now, cl. cbn.
    repeat split; auto.
  - injection H as <- <-. exists [], [], q, evs, now, cl. cbn.
    repeat split; auto.
  - destruct (IH _ H)
      as (idle & readings & q' & evs' & now' & cl' & He' & Hc' & Hi & Hev & Hcl
          & Ht & Hr).
    cbn [w_events w_clock w_trace set_trace set_clock set_events] in He', Hc', Ht.
    exists (q :: idle), (now :: readings), q', evs', now', cl'.
    rewrite He', Hc'. split; [reflexivity|]. split; [reflexivity|].
    split; [by constructor|]. split; [exact Hev|]. split; [exact Hcl|].
    split; [|exact Hr]. rewrite Ht. cbn. by rewrite <- !app_assoc.
Qed.

(** ** The counter of consecutive daydreams *)

(** C6. A round of the session loop that returns to polling has found its
    trigger at one poll of the event tape, read at one reading of the clock,
    after polls that had no status. When the status of that poll at that
    reading is Daydream, the counter of consecutive daydreams with which the
    cycle begins is the old one plus exactly 1 (so it never decreases over
    consecutive daydream cycles); when it is Next, the cycle begins with the
    counter at exactly 0; the cycle itself leaves the counter as it found
    it. *)
Theorem consecutive_daydreams_counter cfg st w st' w' :
  iteration cfg st w = (Ret (Continue st'), w') ->
  exists idle readings q evs now cl st1 w1,
    w_events w = idle ++ q :: evs /\
    w_clock w = readings ++ now :: cl /\
    Forall2 (fun q t => poll_status cfg st q t = None) idle readings /\
    await_event cfg st w = (Ret (Some st1), w1) /\
    w_events w1 = evs /\ w_clock w1 = cl /\
    cycle cfg st1 w1 = (Ret st', w') /\
    consecutive_daydreams st' = consecutive_daydreams st1 /\
    ((poll_status cfg st q now = Some Daydream /\ daydream st' = true /\
      consecutive_daydreams st1 = consecutive_daydreams st + 1 /\
      consecutive_daydreams st <= consecutive_daydreams st') \/
     (poll_status cfg st q now = Some Next /\ daydream st' = false /\
      consecutive_daydreams st1 = 0)).
Proof.
  intros H. unfold iteration in H.
  apply bind_Ret_inv in H as (p & w1 & Hp & H).
  destruct p as [st1|]; [|discriminate H].
  apply bind_Ret_inv in H as (st2 & w2 & Hc & H). injection H as <- <-.
  destruct (cycle_returns _ _ _ _ _ Hc) as [Hd Hn].
  destruct (poll_loop_returns cfg st _ w _ _ Hp)
    as (idle & readings & q & evs & now & cl & He & Hk & Hi & Hev & Hcl & _
        & Hcase).
  exists idle, readings, q, evs, now, cl, st1, w1.
  split; [exact He|]. split; [exact Hk|]. split; [exact Hi|].
  split; [exact Hp|]. split; [exact Hev|]. split; [exact Hcl|].
  split; [exact Hc|]. split; [exact Hn|].
  destruct Hcase as [[Hs ->]|[Hs ->]]; [left|right]; simpl in *;
    repeat split; auto; lia.
Qed.

(** ** Quit *)

(** C7, as the code has it. In a round of the polling loop whose polled event
    is Quit and whose clock reading is still before [next_change_time], the
    machine shuts down: [pygame.quit] is called and [main] returns. (When the
    timer has expired, the poll's status is Daydream whatever was polled.) *)
Theorem quit_before_timer_expiry cfg st fuel w q evs now cl :
  w_events w = q :: evs ->
  w_clock w = now :: cl ->
  polled_event cfg q = Some Quit ->
  now < next_change_time st ->
  let w' := set_trace (w_trace w ++ [EventGet; Monotonic now; PygameQuit])
              (set_clock cl (set_events evs w)) in
  poll_loop cfg st (S fuel) w = (Ret None, w') /\
  iteration cfg st w = (Ret Shutdown, w').
Proof.
  intros He Hc Hq Hlt w'.
  assert (Hs : poll_status cfg st q now = Some Quit).
  { unfold poll_status. fold (polled_event cfg q). rewrite Hq.
    by rewrite (proj2 (Z.leb_gt _ _) Hlt). }
  assert (Hp : forall fuel, poll_loop cfg st (S fuel) w = (Ret None, w')).
  { intros f. rewrite (poll_loop_step _ _ _ _ _ _ _ _ He Hc), Hs.
    subst w'. cbn. by rewrite <- app_assoc. }
  split; [apply Hp|].
  assert (Ha : await_event cfg st w = (Ret None, w')) by apply Hp.
  unfold iteration. by rewrite (bind_Ret _ _ _ _ _ Ha).
Qed.

(** The timer check overrides whatever was polled. *)
Lemma timer_expiry_overrides cfg st q now :
  next_change_time st <= now -> poll_status cfg st q now = Some Daydream.
Proof.
  intros H. unfold poll_status. by rewrite (proj2 (Z.leb_le _ _) H).
Qed.

(** ** The daydream limit *)

Definition is_generation (e : effect) : bool :=
  match e with
  | ChatCompletion _ | Moderation _ | ImageCreate _ _ _ | Transcribe _ => true
  | _ => false
  end.

(** What the loop does while it only polls and redraws the timer. *)
Definition is_idle (e : effect) : bool := is_poll e || is_draw e.

Lemma is_idle_not_generation e : is_idle e = true -> is_generation e = false.
Proof. by destruct e. Qed.

Definition polls_next (cfg : Config) (q : list pg_event * (Z -> bool)) : bool :=
  match polled_event cfg q with Some Next => true | _ => false end.

Lemma reschedule_events cfg st w :
  w_events (snd (reschedule cfg st w)) = w_events w.
Proof.
  unfold reschedule, bind, monotonic, randint, bind, random_draw.
  destruct (w_clock w); [reflexivity|]. simpl.
  destruct (_ <? _); [reflexivity|]. simpl.
  destruct (w_random w); reflexivity.
Qed.

(** Over the limit, a cycle is the redraw of the timer and nothing else. *)
Lemma cycle_over_limit cfg st w :
  start_new st = true ->
  max_consecutive_daydreams cfg < consecutive_daydreams st ->
  cycle cfg st w = reschedule cfg st w.
Proof.
  intros Hs Hlt. unfold cycle, begin_cycle. rewrite Hs.
  rewrite (proj2 (Z.ltb_lt _ _) Hlt). unfold bind.
  destruct (reschedule cfg st w) as [[st'|e|] w1]; reflexivity.
Qed.

Lemma reschedule_window cfg st w now cl x rs :
  w_clock w = now :: cl ->
  w_random w = x :: rs ->
  min_daydream_time cfg <= max_daydream_time cfg ->
  exists r,
    min_daydream_time cfg <= r <= max_daydream_time cfg /\
    reschedule cfg st w =
    (Ret (set_next_change_time (now + r) st),
     set_trace (w_trace w ++ [Monotonic now; RandomDraw x])
       (set_random rs (set_clock cl w))).
Proof.
  intros Hc Hr Hle.
  exists (min_daydream_time cfg
          + Z.of_nat x mod (max_daydream_time cfg - min_daydream_time cfg + 1)).
  split.
  - pose proof (Z.mod_pos_bound (Z.of_nat x)
      (max_daydream_time cfg - min_daydream_time cfg + 1)). lia.
  - unfold reschedule, bind, monotonic, randint. rewrite Hc.
    rewrite (proj2 (Z.ltb_ge _ _) Hle). unfold bind, random_draw. simpl.
    rewrite Hr. simpl. by rewrite <- app_assoc.
Qed.

Lemma iteration_over_limit cfg st w :
  max_consecutive_daydreams cfg < consecutive_daydreams st ->
  Forall (fun q => polls_next cfg q = false) (w_events w) ->
  exists d,
    w_trace (snd (iteration cfg st w)) = w_trace w ++ d /\
    over is_idle d /\
    Forall (fun q => polls_next cfg q = false) (w_events (snd (iteration cfg st w))) /\
    (forall st', fst (iteration cfg st w) = Ret (Continue st') ->
       max_consecutive_daydreams cfg < consecutive_daydreams st').
Proof.
  intros Hlt Hev. unfold iteration.
  destruct (poll_loop_spec cfg st (S (length (w_events w))) w)
    as (d & Ht & Hd & [k Hk] & Hr).
  change (poll_loop cfg st (S (length (w_events w))) w)
    with (await_event cfg st w) in *.
  assert (Hd' : over is_idle d).
  { eapply Forall_impl; [exact Hd|]. intros e He. unfold is_idle. by rewrite He. }
  assert (Hev1 : Forall (fun q => polls_next cfg q = false)
                   (w_events (snd (await_event cfg st w)))).
  { rewrite Hk. by apply Forall_drop. }
  unfold bind.
  destruct (await_event cfg st w) as [[[st1|]|e|] w1]; cbn [fst snd] in *;
    try (exists d; repeat split; auto; discriminate).
  destruct (Hr st1 eq_refl) as (q & now & Hin & [[Hs ->]|[Hs ->]]).
  - assert (Hlt1 : max_consecutive_daydreams cfg
                   < consecutive_daydreams (on_daydream st)) by (simpl; lia).
    rewrite (cycle_over_limit cfg (on_daydream st) w1 eq_refl Hlt1).
    pose proof (reschedule_events cfg (on_daydream st) w1) as Hre.
    destruct (emits_reschedule is_idle cfg (on_daydream st)
                ltac:(done) ltac:(done) w1) as (d2 & Ht2 & Hd2).
    pose proof (reschedule_returns cfg (on_daydream st) w1) as Hrr.
    destruct (reschedule cfg (on_daydream st) w1) as [[st2|e|] w2];
      cbn [fst snd ret] in *; exists (d ++ d2); rewrite Ht2, Ht, app_assoc;
      (split; [reflexivity|]); (split; [by apply Forall_app|]);
      (split; [by rewrite Hre|]); try discriminate.
    intros st' [= <-]. destruct (Hrr st2 w2 eq_refl) as [t ->]. simpl. lia.
  - exfalso. unfold poll_status in Hs. fold (polled_event cfg q) in Hs.
    destruct (_ <=? _); [discriminate|].
    rewrite Forall_forall in Hev. specialize (Hev q Hin).
    unfold polls_next in Hev. by rewrite Hs in Hev.
Qed.

(** C5. Once the counter of consecutive daydreams is above the limit, and as
    long as no Next event is polled, the session loop only polls, reads the
    clock and draws random numbers: no chat completion, moderation, image
    generation or transcription call occurs, however long it runs. Each cycle
    over the limit only redraws [next_change_time] as the clock reading plus a
    value in [[min_daydream_time, max_daydream_time]] and returns to polling. *)
Theorem daydream_limit_blocks_generation cfg :
  (forall fuel st w,
     max_consecutive_daydreams cfg < consecutive_daydreams st ->
     Forall (fun q => polls_next cfg q = false) (w_events w) ->
     exists d,
       w_trace (snd (main_loop cfg fuel st w)) = w_trace w ++ d /\
       over is_idle d /\ Forall (fun e => is_generation e = false) d) /\
  (forall st w now cl x rs,
     start_new st = true ->
     max_consecutive_daydreams cfg < consecutive_daydreams st ->
     w_clock w = now :: cl ->
     w_random w = x :: rs ->
     min_daydream_time cfg <= max_daydream_time cfg ->
     exists r,
       min_daydream_time cfg <= r <= max_daydream_time cfg /\
       cycle cfg st w =
       (Ret (set_next_change_time (now + r) st),
        set_trace (w_trace w ++ [Monotonic now; RandomDraw x])
          (set_random rs (set_clock cl w)))).
Proof.
  split.
  - assert (H : forall fuel st w,
       max_consecutive_daydreams cfg < consecutive_daydreams st ->
       Forall (fun q => polls_next cfg q = false) (w_events w) ->
       exists d, w_trace (snd (main_loop cfg fuel st w)) = w_trace w ++ d /\
                 over is_idle d).
    { induction fuel as [|fuel IH]; intros st w Hlt Hev.
      { exists []. simpl. rewrite app_nil_r. split; [done|constructor]. }
      cbn [main_loop]. unfold bind.
      destruct (iteration_over_limit cfg st w Hlt Hev) as (d & Ht & Hd & Hev1 & Hc).
      destruct (iteration cfg st w) as [[[|st1]|e|] w1]; cbn [fst snd ret] in *;
        try (exists d; split; [exact Ht|exact Hd]).
      destruct (IH st1 w1 (Hc st1 eq_refl) Hev1) as (d2 & Ht2 & Hd2).
      exists (d ++ d2). rewrite Ht2, Ht, app_assoc. split; [done|].
      by apply Forall_app. }
    intros fuel st w Hlt Hev. destruct (H fuel st w Hlt Hev) as (d & Ht & Hd).
    exists d. split; [exact Ht|]. split; [exact Hd|].
    eapply Forall_impl; [exact Hd|]. apply is_idle_not_generation.
  - intros st w now cl x rs Hs Hlt Hc Hr Hle.
    destruct (reschedule_window cfg st w now cl x rs Hc Hr Hle) as (r & Hb & E).
    exists r. split; [exact Hb|]. by rewrite (cycle_over_limit _ _ _ Hs Hlt).
Qed.

(** ** The base name of a cycle *)

Definition lowercase (c : ascii) : Prop :=
  c ∈ list_ascii_of_string ascii_lowercase.

(** [get_random_string] only draws random numbers, and a name it returns has
    the asked length and lowercase letters only. *)
Lemma get_random_string_spec n w r w1 :
  get_random_string n w = (r, w1) ->
  exists rs d,
    w1 = set_trace (w_trace w ++ d) (set_random rs w) /\
    over is_draw d /\
    (forall name, r = Ret name ->
       String.length name = n /\ Forall lowercase (list_ascii_of_string name)).
Proof.
  revert w r w1. induction n as [|n IH]; intros w r w1 H.
  - injection H as <- <-.
    exists (w_random w), []. rewrite app_nil_r. split; [by destruct w|].
    split; [constructor|]. intros name [= <-]. split; [done|constructor].
  - rewrite get_random_string_S in H. unfold bind at 1, choice in H.
    cbn [list_ascii_of_string ascii_lowercase] in H.
    unfold bind at 1, random_draw in H.
    destruct (w_random w) as [|x rs0] eqn:Hr.
    { injection H as <- <-. exists (w_random w), []. rewrite app_nil_r.
      split; [by destruct w|]. split; [constructor|discriminate]. }
    cbn [ret] in H. unfold bind in H.
    match type of H with context [get_random_string n ?w2] =>
      destruct (get_random_string n w2) as [r3 w3] eqn:E;
      destruct (IH _ _ _ E) as (rs & d & Hw & Hd & Hname) end.
    exists rs, (RandomDraw x :: d).
    assert (Hw1 : w1 = w3) by (destruct r3; by injection H).
    rewrite Hw1, Hw. cbn. rewrite <- app_assoc.
    split; [reflexivity|]. split; [by constructor|].
    intros name ->. destruct r3 as [s|e|]; try discriminate.
    injection H as <- _. destruct (Hname s eq_refl) as [Hl Hf].
    split; [simpl; by rewrite Hl|].
    cbn [list_ascii_of_string]. constructor; [|exact Hf].
    unfold lowercase. apply list_elem_of_In.
    change (In (nth (x mod 26)%nat (list_ascii_of_string ascii_lowercase) "a"%char)
              (list_ascii_of_string ascii_lowercase)).
    apply nth_In. apply Nat.mod_upper_bound. discriminate.
Qed.

(** ** Failure of a cycle in Working *)

(** The moderation gate fails: the next answer of the service is "flagged". *)
Definition gate_fails (w : World) : Prop :=
  exists rest, w_moderation w = inr true :: rest.

(** Image generation errors: the gate passes and the image service raises. *)
Definition image_fails (w : World) : Prop :=
  exists rest e rest',
    w_moderation w = inr false :: rest /\ w_image w = inl e :: rest'.

(** The effects of a cycle that fails: random draws, the text file, the two
    service calls, the failure status and the narration. *)
Definition is_failed_cycle (e : effect) : bool :=
  match e with
  | WriteFile _ (TextFile _) | Moderation _ | ImageCreate _ _ _ => true
  | _ => is_failure e
  end.

Definition text_file_of (cfg : Config) (name : string) : string :=
  path_join (output_dir cfg) (name +:+ ".txt").

Lemma creation_failed_spec cfg st w r w' :
  creation_failed cfg st w = (r, w') ->
  exists d, w_trace w' = w_trace w ++ d /\ over is_failure d /\
            (forall st', r = Ret st' -> st' = st).
Proof.
  intros H.
  destruct (emits_creation_failed is_failure cfg st ltac:(done) w) as (d & Ht & Hd).
  rewrite H in Ht. exists d. split; [exact Ht|]. split; [exact Hd|].
  intros st' ->. by apply creation_failed_returns in H.
Qed.

Lemma working_fails cfg st w r w' :
  gate_fails w \/ image_fails w ->
  working cfg st w = (r, w') ->
  exists d,
    w_trace w' = w_trace w ++ d /\
    over is_failed_cycle d /\
    (forall st', r = Ret st' ->
       st' = st /\
       exists name,
         String.length name = 12%nat /\
         Forall lowercase (list_ascii_of_string name) /\
         WriteFile (text_file_of cfg name) (TextFile (msg st)) ∈ d).
Proof.
  intros Hfail H. unfold working in H. unfold bind at 1 in H.
  destruct (get_random_string 12 w) as [r0 w1] eqn:E0.
  destruct (get_random_string_spec _ _ _ _ E0) as (rs & d0 & Hw & Hd0 & Hname).
  assert (Hd0' : over is_failed_cycle d0).
  { eapply Forall_impl; [exact Hd0|]. by intros []. }
  destruct r0 as [name|e|];
    try (injection H as <- <-; exists d0; subst w1;
         repeat split; auto; discriminate).
  destruct (Hname name eq_refl) as [Hlen Hlow]. subst w1.
  unfold bind at 1, write_file in H. cbn [w_trace w_files set_trace set_random] in H.
  unfold bind at 1, check_moderation, bind at 1, moderation_create in H.
  cbn [w_moderation set_trace set_files set_random] in H.
  fold (text_file_of cfg name) in H.
  assert (Hcf : forall w2 d1,
    creation_failed cfg st w2 = (r, w') ->
    w_trace w2 = w_trace w ++ d0 ++ d1 ->
    over is_failed_cycle d1 ->
    WriteFile (text_file_of cfg name) (TextFile (msg st)) ∈ d1 ->
    exists d,
      w_trace w' = w_trace w ++ d /\
      over is_failed_cycle d /\
      (forall st', r = Ret st' ->
         st' = st /\
         exists name,
           String.length name = 12%nat /\
           Forall lowercase (list_ascii_of_string name) /\
           WriteFile (text_file_of cfg name) (TextFile (msg st)) ∈ d)).
  { intros w2 d1 Hc Hw2 Hd1 Hin.
    destruct (creation_failed_spec _ _ _ _ _ Hc) as (d2 & Ht2 & Hd2 & Hr2).
    exists (d0 ++ d1 ++ d2). rewrite Ht2, Hw2, <- !app_assoc.
    split; [reflexivity|]. split.
    - repeat (apply Forall_app; split); auto.
      eapply Forall_impl; [exact Hd2|].
      intros [| | | | | | | | | | | | | | | | ? []|]; done.
    - intros st' Hret. split; [by apply Hr2|].
      exists name. split; [exact Hlen|]. split; [exact Hlow|].
      apply elem_of_app. right. apply elem_of_app. by left. }
  destruct Hfail as [[rest Hm]|(rest & e & rest' & Hm & Hi)]; rewrite Hm in H;
    cbn [ret negb] in H.
  - apply (Hcf _ [WriteFile (text_file_of cfg name) (TextFile (msg st));
                  Moderation (image_base_prompt cfg +:+ msg st)] H).
    + cbn. by rewrite <- !app_assoc.
    + by repeat constructor.
    + left.
  - unfold bind at 1, image_create in H.
    cbn [w_image set_trace set_files set_random set_moderation] in H.
    rewrite Hi in H.
    apply (Hcf _ [WriteFile (text_file_of cfg name) (TextFile (msg st));
                  Moderation (image_base_prompt cfg +:+ msg st);
                  ImageCreate (image_base_prompt cfg +:+ msg st)
                    (img_width cfg) (img_height cfg)] H).
    + cbn. by rewrite <- !app_assoc.
    + by repeat constructor.
    + left.
Qed.

Definition failure_status : effect := ShowStatus "Creation failed!".



(** ** Output artifacts *)

Definition is_image_write (e : effect) : bool :=
  match e with
  | WriteFile _ (ImageFile _) | WriteFile _ (Screenshot _ _ _) => true
  | _ => false
  end.

(** C9, as the code has it. A cycle that fails at the moderation gate or at
    image generation writes neither the raw image nor the composed scene, so
    these are written in successful cycles only; the text file, which holds
    the message of the cycle, is written before the gate under a random
    identifier of 12 lowercase letters, in a failing cycle too. *)
Theorem failed_cycle_writes_text_only cfg st w r w' :
  gate_fails w \/ image_fails w ->
  working cfg st w = (r, w') ->
  exists d,
    w_trace w' = w_trace w ++ d /\
    Forall (fun e => is_image_write e = false) d /\
    (forall st', r = Ret st' ->
       exists name,
         String.length name = 12%nat /\
         Forall lowercase (list_ascii_of_string name) /\
         WriteFile (text_file_of cfg name) (TextFile (msg st)) ∈ d).
Proof.
  intros Hfail H.
  destruct (working_fails _ _ _ _ _ Hfail H) as (d & Ht & Hd & Hr).
  exists d. split; [exact Ht|]. split.
  - eapply Forall_impl; [exact Hd|].
    intros [| | | | | | | | | | | | | | | | ? []|]; done.
  - intros st' Hst. by destruct (Hr st' Hst) as [_ ?].
Qed.

(** ** Audio in daydream cycles *)

Definition is_audio (e : effect) : bool :=
  match e with TextToSpeech _ _ | Play _ => true | _ => false end.


(** Either nothing was synthesized or played, or the failure status was
    rendered. *)
Definition quiet_unless_failed (d : list effect) : Prop :=
  Forall (fun e => is_audio e = false) d \/ failure_status ∈ d.

#[export] Instance quiet_unless_failed_closed : Closed quiet_unless_failed.
Proof.
  split; [left; constructor|].
  intros d1 d2 [H1|H1] [H2|H2].
  - left. by apply Forall_app.
  - right. apply elem_of_app. by right.
  - right. apply elem_of_app. by left.
  - right. apply elem_of_app. by left.
Qed.


Ltac emits_block :=
  first
    [ apply emits_get_best_verse; auto
    | apply emits_reschedule; auto
    | emits_step ].








(** * Further properties of the code *)

(** ** [check_for_event] *)

(** The first event of the queue that stands for a status decides; the
    events behind it in the same poll are not looked at (and, the queue being
    drained by [pygame.event.get], they are lost). *)
Theorem check_for_event_app js g d h p (q1 q2 : list pg_event) :
  check_for_event js g d h p (q1 ++ q2) =
  match check_for_event js g d h p q1 with
  | Some s => Some s
  | None => check_for_event js g d h p q2
  end.
Proof.
  induction q1 as [|e q1 IH]; [reflexivity|]. cbn [app check_for_event].
  destruct e as [[]|button|]; try reflexivity; try exact IH.
  destruct js as [buttons|]; [|exact IH].
  destruct (_ && _); [reflexivity|].
  destruct (button =? g); [reflexivity|].
  destruct (button =? d); [reflexivity|exact IH].
Qed.

Definition is_keydown (e : pg_event) : bool :=
  match e with KEYDOWN _ => true | _ => false end.

(** Without a joystick only the keyboard counts: joystick events are skipped,
    and the button numbers of the configuration play no part. *)
Theorem check_for_event_without_joystick g d h p g' d' h' p' (q : list pg_event) :
  check_for_event None g d h p q =
  check_for_event None g' d' h' p' (List.filter is_keydown q).
Proof.
  induction q as [|e q IH]; [reflexivity|].
  destruct e as [[]|button|]; cbn; try reflexivity; exact IH.
Qed.

(** Shutdown by the joystick needs the hold button: while it is not held and
    Escape is not pressed, no poll gives Quit, whatever buttons are pressed. *)
Theorem joystick_quit_needs_hold buttons g d h p (q : list pg_event) :
  buttons h = false ->
  KEYDOWN K_ESCAPE ∉ q ->
  check_for_event (Some buttons) g d h p q <> Some Quit.
Proof.
  intros Hh Hq. induction q as [|e q IH]; [discriminate|].
  apply not_elem_of_cons in Hq as [He Hq]. specialize (IH Hq).
  destruct e as [[]|button|]; cbn [check_for_event]; try discriminate;
    try exact IH; [congruence|].
  rewrite Hh, andb_false_r.
  destruct (button =? g); [discriminate|].
  destruct (button =? d); [discriminate|exact IH].
Qed.

(** ** [get_random_string] *)

Definition letter_of (r : nat) : ascii :=
  nth (r mod 26)%nat (list_ascii_of_string ascii_lowercase) "a"%char.

Lemma get_random_string_run (rs : list nat) w rest :
  w_random w = rs ++ rest ->
  get_random_string (length rs) w =
  (Ret (string_of_list_ascii (map letter_of rs)),
   set_trace (w_trace w ++ map RandomDraw rs) (set_random rest w)).
Proof.
  revert w. induction rs as [|r rs IH]; intros w Hw.
  - cbn. rewrite app_nil_r. simpl in Hw. rewrite <- Hw. by destruct w.
  - cbn [length]. rewrite get_random_string_S. unfold bind at 1, choice.
    cbn [list_ascii_of_string ascii_lowercase]. unfold bind at 1, random_draw.
    rewrite Hw. cbn [app ret]. unfold bind.
    match goal with |- context [get_random_string _ ?w1] =>
      rewrite (IH w1) by reflexivity end.
    cbn. by rewrite <- app_assoc.
Qed.

(** With [n] numbers left on the random tape, [get_random_string n] returns:
    it draws exactly [n] numbers, one per letter, and the name has [n]
    letters, the letter of a draw [r] being the one of rank [r mod 26]. *)
Theorem get_random_string_draws n (rs : list nat) w rest :
  w_random w = rs ++ rest ->
  length rs = n ->
  exists name,
    get_random_string n w =
    (Ret name, set_trace (w_trace w ++ map RandomDraw rs) (set_random rest w)) /\
    name = string_of_list_ascii (map letter_of rs) /\
    String.length name = n /\
    Forall lowercase (list_ascii_of_string name).
Proof.
  intros Hw <-. eexists. split; [by apply get_random_string_run|].
  split; [reflexivity|].
  rewrite list_ascii_of_string_of_list_ascii. split.
  - clear Hw. induction rs as [|r rs IH]; [reflexivity|]. simpl. by rewrite IH.
  - apply Forall_map, Forall_forall. intros r _. unfold lowercase, letter_of.
    apply list_elem_of_In, nth_In, Nat.mod_upper_bound. discriminate.
Qed.

(** ** [ChatCharacter] *)

Inductive setter_error := RuntimeError | EmptyTranscript.

(** The setter of [system_prompt]: it rewrites the first message of the
    transcript when that is a system message and raises [RuntimeError]
    otherwise ([EmptyTranscript] is the [IndexError] of [self._messages[0]]);
    the attribute [_system_prompt] is not assigned. *)
Definition set_system_prompt (c : ChatCharacter) (prompt : string)
  : setter_error + ChatCharacter :=
  match messages c with
  | [] => inl EmptyTranscript
  | m :: rest =>
      if String.eqb (role m) "system"
      then inr {| system_prompt := system_prompt c;
                  messages := {| role := "system"; content := prompt |} :: rest |}
      else inl RuntimeError
  end.

(** The transcript starts with a system message. *)
Definition system_first (c : ChatCharacter) : Prop :=
  exists text rest, messages c = {| role := "system"; content := text |} :: rest.

Lemma system_first_reset c : system_first (reset c).
Proof. by eexists _, _. Qed.

Lemma system_first_get_chat_response c m w c' answer w' :
  system_first c ->
  get_chat_response c m w = (Ret (c', answer), w') ->
  system_first c' /\
  messages c' = messages c ++ [ {| role := "user"; content := m |};
                                {| role := "assistant"; content := answer |} ].
Proof.
  intros (text & rest & Hm) H. unfold get_chat_response in H.
  apply bind_Ret_inv in H as (a & w1 & _ & H). injection H as <- <- <-.
  cbn [messages]. rewrite <- app_assoc. split; [|reflexivity].
  rewrite Hm. by eexists _, _.
Qed.

(** On a character whose transcript starts with its system message (as it
    does after the constructor, after [reset] and after every chat call) the
    setter succeeds and rewrites that message only; the getter still gives
    the prompt of the constructor, and the next [reset] brings that prompt
    back, dropping the one that was set. *)
Theorem set_system_prompt_not_kept c prompt :
  system_first c ->
  exists c',
    set_system_prompt c prompt = inr c' /\
    messages c' = {| role := "system"; content := prompt |} :: tail (messages c) /\
    system_prompt c' = system_prompt c /\
    reset c' = reset c.
Proof.
  intros (text & rest & Hm). unfold set_system_prompt. rewrite Hm. cbn.
  eexists. split; [reflexivity|]. by repeat split.
Qed.

(** ** The verse arbiter: what the personas are sent *)

Definition user_message (text : string) : message :=
  {| role := "user"; content := text |}.

Definition assistant_message (text : string) : message :=
  {| role := "assistant"; content := text |}.

(** The turns that [verses] add to the transcript of the poet. *)
Definition dialogue (prompt : string) (verses : list string) : list message :=
  flat_map (fun v => [user_message prompt; assistant_message v]) verses.

(** The request for verse number [k] (from 0): the transcript so far, with
    the [k] verses already written, and the prompt once more. *)
Definition poet_request (history : list message) (prompt : string)
    (verses : list string) (k : nat) : effect :=
  ChatCompletion (history ++ dialogue prompt (take k verses) ++ [user_message prompt]).

Lemma generate_verses_trace (vs : list string) p prompt acc w rest :
  w_chat w = map inr vs ++ rest ->
  exists w',
    generate_verses (length vs) p prompt acc w =
    (Ret ({| system_prompt := system_prompt p;
             messages := messages p ++ dialogue prompt vs |}, acc ++ vs), w') /\
    w_trace w' =
      w_trace w ++ map (poet_request (messages p) prompt vs) (seq 0 (length vs)) /\
    w_chat w' = rest /\ w_random w' = w_random w.
Proof.
  revert p acc w. induction vs as [|v vs IH]; intros p acc w Hw.
  - exists w. cbn. rewrite !app_nil_r. split; [by destruct p|]. auto.
  - cbn [length generate_verses].
    unfold get_chat_response at 1, chat_completion_create at 1.
    unfold bind at 1. unfold bind at 1. rewrite Hw. cbn [map app lift ret fst snd].
    match goal with |- context [generate_verses _ ?p1 _ _ ?w1] =>
      destruct (IH p1 (acc ++ [v]) w1) as (w' & E & Ht & Hc & Hr);
        [reflexivity|] end.
    exists w'. rewrite E. cbn [system_prompt messages] in *.
    split; [|split; [|split]]; [| |exact Hc|exact Hr].
    + rewrite <- !app_assoc. reflexivity.
    + rewrite Ht. cbn [w_trace set_trace set_chat seq map].
      rewrite <- app_assoc. cbn [app]. do 2 f_equal.
      rewrite <- seq_shift, map_map. apply map_ext. intros k.
      unfold poet_request. cbn [take dialogue flat_map].
      by rewrite <- !app_assoc.
Qed.

(** All the verses of one call come from one growing transcript: the poet's
    transcript ends up with a user turn and an assistant turn per verse, and
    the request for each verse carries the verses written before it. *)
Theorem generate_verses_transcript (vs : list string) p prompt w rest :
  w_chat w = map inr vs ++ rest ->
  exists p' w',
    generate_verses (length vs) p prompt [] w = (Ret (p', vs), w') /\
    messages p' = messages p ++ dialogue prompt vs /\
    length (messages p') = (length (messages p) + 2 * length vs)%nat /\
    w_trace w' =
      w_trace w ++ map (poet_request (messages p) prompt vs) (seq 0 (length vs)).
Proof.
  intros Hw.
  destruct (generate_verses_trace vs p prompt [] w rest Hw)
    as (w' & E & Ht & _ & _).
  eexists _, w'. split; [exact E|]. cbn [messages].
  split; [reflexivity|]. split; [|exact Ht].
  rewrite length_app. f_equal. clear. induction vs as [|v vs IH]; [reflexivity|].
  change (dialogue prompt (v :: vs))
    with (user_message prompt :: assistant_message v :: dialogue prompt vs).
  cbn [length]. rewrite IH. lia.
Qed.

(** The prompt of the poet and the message to the critic. *)
Definition verse_prompt (base user : string) : string := base +:+ " " +:+ user.

Definition critic_message (user : string) (verses : list string) : string :=
  "Theme: " +:+ user +:+ nl +:+ enumerate_poems 1 verses.

(** One call of [get_best_verse] makes [n + 1] chat requests and they do not
    depend on what the two personas were sent before: the poet starts again
    from its system message, and the critic is sent its system message and
    the one message that lists the theme and the [n] verses. After the
    requests come the random draws of the fall-back, if any. *)
Theorem get_best_verse_requests p c base user n (vs : list string) verdict w rest :
  w_chat w = map inr vs ++ inr verdict :: rest ->
  length vs = Z.to_nat n ->
  exists d,
    w_trace (snd (get_best_verse p c base user n w)) =
      w_trace w
      ++ map (poet_request [ {| role := "system"; content := system_prompt p |} ]
                (verse_prompt base user) vs) (seq 0 (length vs))
      ++ [ChatCompletion [ {| role := "system"; content := system_prompt c |};
                           user_message (critic_message user vs) ]]
      ++ d /\
    over is_draw d.
Proof.
  intros Hw Hn. unfold get_best_verse. rewrite <- Hn.
  destruct (generate_verses_trace vs (reset p) (base +:+ " " +:+ user) [] w
              (inr verdict :: rest) Hw) as (w' & E & Ht & Hc & Hr).
  rewrite (bind_Ret _ _ _ _ _ E). cbn [snd fst app].
  unfold get_chat_response, chat_completion_create.
  unfold bind at 1. unfold bind at 1. rewrite Hc. cbn [lift ret fst snd].
  match goal with |- context [w_trace (snd (?tail ?w2))] =>
    assert (Hs : emits (over is_draw) tail)
      by (destruct (first_digit verdict); repeat emits_step);
    destruct (Hs w2) as (d & Hd & Hover)
  end.
  exists d. split; [|exact Hover].
  cbn [fst snd app] in Hd |- *. rewrite Hd. cbn [w_trace set_trace set_chat].
  rewrite Ht. by rewrite <- !app_assoc.
Qed.

(** A verdict whose first digit is 0 is not refused: [verses[0 - 1]] is the
    look-up at index -1, and the last verse is returned. *)
Theorem get_best_verse_zero_selects_last p c base user n (vs : list string)
    verdict w rest ch v :
  w_chat w = map inr vs ++ inr verdict :: rest ->
  length vs = Z.to_nat n ->
  first_digit verdict = Some ch ->
  int_of_char ch = inr 0 ->
  last vs = Some v ->
  exists p' c' w',
    get_best_verse p c base user n w = (Ret (p', c', v), w').
Proof.
  intros Hw Hn Hc Hd Hl.
  destruct (get_best_verse_run p c base user n vs verdict w rest Hw Hn)
    as (p' & c' & w1 & _ & _ & E).
  rewrite E. unfold select_verse. rewrite Hc, Hd. unfold bind. cbn [lift ret].
  assert (Hlen : (0 < length vs)%nat) by (destruct vs; [discriminate|simpl; lia]).
  unfold py_index.
  replace ((0 - 1 <? - Z.of_nat (length vs)) || (Z.of_nat (length vs) <=? 0 - 1))
    with false by (symmetry; apply orb_false_iff; split;
                   [apply Z.ltb_ge|apply Z.leb_gt]; lia).
  replace (0 - 1 <? 0) with true by reflexivity.
  replace (Z.to_nat (0 - 1 + Z.of_nat (length vs))) with (pred (length vs)) by lia.
  rewrite <- last_lookup, Hl. cbn. eauto.
Qed.

(** ** The prompt of a daydream *)

(** What the artist persona is asked in a daydream. *)
Definition daydream_request (cfg : Config) (previous : string) : string :=
  if String.eqb previous ""
  then artist_base_prompt cfg +:+ " something completely random."
  else artist_base_prompt cfg +:+ " " +:+ previous.

(** The artist persona is never reset: a daydream adds its request and the
    answer to the transcript the persona already has, so every daydream is
    asked with all the earlier daydreams in front of it. The answer becomes
    the message of the cycle; an empty previous message is replaced by the
    words "something completely random." *)
Theorem daydream_keeps_history cfg st s w st' w' :
  daydream st = true ->
  compose_prompt cfg st s w = (Ret st', w') ->
  exists answer rest,
    w_chat w = inr answer :: rest /\
    msg st' = answer /\
    messages (ai_artist st') =
      messages (ai_artist st)
      ++ [user_message (daydream_request cfg (msg st)); assistant_message answer] /\
    w_trace w' =
      w_trace w
      ++ [ShowStatus "Daydreaming...";
          ChatCompletion (messages (ai_artist st)
                          ++ [user_message (daydream_request cfg (msg st))])] /\
    poet st' = poet st /\ critic st' = critic st /\
    next_change_time st' = next_change_time st.
Proof.
  intros Hd H. unfold compose_prompt in H. rewrite Hd in H. cbn [negb] in H.
  fold (daydream_request cfg (msg st)) in H.
  unfold bind at 1, show_status_screen, emit in H.
  unfold bind at 1, get_chat_response, bind at 1, chat_completion_create in H.
  cbn [w_chat set_trace w_trace] in H.
  destruct (w_chat w) as [|[e|answer] rest]; try discriminate H.
  cbn in H. injection H as <- <-. exists answer, rest. cbn.
  rewrite <- !app_assoc. by repeat split.
Qed.

(** ** Listening *)

(** Silence: when the first [n] captures of a voice cycle with [n] attempts
    left hold no voice, the loop gives up after exactly [n] recordings, shows
    "Ready" and leaves the session as it was; nothing is transcribed,
    moderated, generated, written or spoken. *)
Theorem listen_gives_up_on_silence cfg st (silent : list (bytes * bool)) w rest :
  daydream st = false ->
  w_mic w = silent ++ rest ->
  Forall (fun capture => snd capture = false) silent ->
  listen cfg st (length silent) w =
  (Ret st,
   set_trace (w_trace w
              ++ repeat (Record_ (max_recording_time cfg)) (length silent)
              ++ [ShowStatus "Ready"])
     (set_mic rest w)).
Proof.
  intros Hd. revert w. induction silent as [|a silent IH]; intros w Hw Hs.
  - cbn. simpl in Hw. rewrite <- Hw. by destruct w.
  - apply Forall_cons in Hs as [Ha Hs]. cbn [length listen]. rewrite Hd.
    unfold bind at 1, record. rewrite Hw. cbn [app]. rewrite Ha.
    rewrite IH by (try reflexivity; exact Hs).
    cbn. by rewrite <- !app_assoc.
Qed.

(** A capture with voice ends the listening: after [k] silent captures, with
    attempts left, the next capture that holds voice is the one that is
    transcribed, and the cycle goes on to Working with its text. *)
Theorem listen_takes_first_voice cfg st (silent : list (bytes * bool)) n
    audio w rest :
  daydream st = false ->
  w_mic w = silent ++ (audio, true) :: rest ->
  Forall (fun capture => snd capture = false) silent ->
  (length silent < n)%nat ->
  listen cfg st n w =
  (st1 <- compose_prompt cfg st audio ;; working cfg st1)
    (set_trace (w_trace w
                ++ repeat (Record_ (max_recording_time cfg)) (S (length silent)))
       (set_mic rest w)).
Proof.
  intros Hd. revert n w. induction silent as [|a silent IH]; intros n w Hw Hs Hn.
  - destruct n as [|n]; [simpl in Hn; lia|]. cbn [listen]. rewrite Hd.
    unfold bind at 1, record. rewrite Hw. reflexivity.
  - apply Forall_cons in Hs as [Ha Hs].
    destruct n as [|n]; [simpl in Hn; lia|]. cbn [listen length]. rewrite Hd.
    unfold bind at 1, record. rewrite Hw. cbn [app]. rewrite Ha.
    rewrite (IH n) by (try reflexivity; try exact Hs; simpl in Hn; lia).
    cbn. by rewrite <- !app_assoc.
Qed.

(** ** Polling *)

Definition world_after_polls (events : list (list pg_event * (Z -> bool)))
    (clock : list Z) (d : list effect) (w : World) : World :=
  set_trace (w_trace w ++ d) (set_clock clock (set_events events w)).

(** The effects of [k] polls with their clock readings. *)
Definition poll_effects (readings : list Z) : list effect :=
  flat_map (fun t => [EventGet; Monotonic t]) readings.

Lemma poll_loop_skips_idle cfg st (idle : list (list pg_event * (Z -> bool)))
    (readings : list Z) fuel w q evs now cl :
  w_events w = idle ++ q :: evs ->
  w_clock w = readings ++ now :: cl ->
  Forall2 (fun q t => poll_status cfg st q t = None) idle readings ->
  poll_loop cfg st (length idle + S fuel) w =
  let w2 := world_after_polls evs cl (poll_effects (readings ++ [now])) w in
  match poll_status cfg st q now with
  | Some Quit => (Ret None, set_trace (w_trace w2 ++ [PygameQuit]) w2)
  | Some Next => (Ret (Some (on_next st)), w2)
  | Some Daydream => (Ret (Some (on_daydream st)), w2)
  | None => poll_loop cfg st fuel w2
  end.
Proof.
  intros He Hc Hi. revert w He Hc.
  induction Hi as [|q0 t0 idle readings H0 Hi IH]; intros w He Hc.
  - cbn [length Nat.add app] in *. rewrite (poll_loop_step _ _ _ _ _ _ _ _ He Hc).
    unfold world_after_polls. reflexivity.
  - cbn [length Nat.add app] in *.
    rewrite (poll_loop_step _ _ _ _ _ _ _ _ He Hc), H0. cbv zeta.
    rewrite IH by reflexivity. unfold world_after_polls. cbn.
    rewrite <- !app_assoc. reflexivity.
Qed.

(** The polling loop returns at the first poll that has a status: the polls
    before it, which found nothing while the timer was running, are skipped,
    and exactly one entry of the event queue and one clock reading are used
    per poll. The status decides: Next and Daydream start a cycle with the
    flags and the counter set, Quit calls [pygame.quit] and ends [main]. *)
Theorem await_event_first_status cfg st (idle : list (list pg_event * (Z -> bool)))
    (readings : list Z) w q evs now cl s :
  w_events w = idle ++ q :: evs ->
  w_clock w = readings ++ now :: cl ->
  Forall2 (fun q t => poll_status cfg st q t = None) idle readings ->
  poll_status cfg st q now = Some s ->
  let w2 := world_after_polls evs cl (poll_effects (readings ++ [now])) w in
  await_event cfg st w =
  match s with
  | Quit => (Ret None, set_trace (w_trace w2 ++ [PygameQuit]) w2)
  | Next => (Ret (Some (on_next st)), w2)
  | Daydream => (Ret (Some (on_daydream st)), w2)
  end.
Proof.
  intros He Hc Hi Hs. unfold await_event. rewrite He.
  replace (S (length (idle ++ q :: evs)))
    with (length idle + S (S (length evs)))%nat
    by (rewrite length_app; simpl; lia).
  rewrite (poll_loop_skips_idle cfg st idle readings _ w q evs now cl He Hc Hi).
  rewrite Hs. by destruct s.
Qed.

(** [main] leaves its loop only through Quit: a round that shuts down has
    found, after polls without a status, a poll whose event is Quit, read at
    a clock reading that is still before [next_change_time]; up to
    [pygame.quit], its last effect, the round has only polled the events and
    read the clock, one queue and one reading per poll. *)
Theorem shutdown_only_on_quit cfg st w w' :
  iteration cfg st w = (Ret Shutdown, w') ->
  exists idle readings q evs now cl,
    w_events w = idle ++ q :: evs /\
    w_clock w = readings ++ now :: cl /\
    Forall2 (fun q t => poll_status cfg st q t = None) idle readings /\
    polled_event cfg q = Some Quit /\
    now < next_change_time st /\
    w_events w' = evs /\ w_clock w' = cl /\
    w_trace w' = w_trace w ++ poll_effects (readings ++ [now]) ++ [PygameQuit] /\
    over is_poll (poll_effects (readings ++ [now])).
Proof.
  intros H. unfold iteration in H.
  apply bind_Ret_inv in H as (p & w1 & Hp & H).
  destruct p as [st1|].
  { apply bind_Ret_inv in H as (? & ? & _ & H). discriminate H. }
  injection H as <-.
  destruct (poll_loop_returns cfg st _ w _ _ Hp)
    as (idle & readings & q & evs & now & cl & He & Hk & Hi & Hev & Hcl & Ht
        & Hs).
  exists idle, readings, q, evs, now, cl.
  unfold poll_status in Hs. fold (polled_event cfg q) in Hs.
  destruct (next_change_time st <=? now) eqn:Hle; [discriminate Hs|].
  apply Z.leb_gt in Hle.
  split; [exact He|]. split; [exact Hk|]. split; [exact Hi|].
  split; [exact Hs|]. split; [exact Hle|]. split; [exact Hev|].
  split; [exact Hcl|]. split; [exact Ht|].
  unfold poll_effects, over. apply Forall_flat_map, Forall_forall.
  intros t _. by repeat constructor.
Qed.

(** ** Start-up *)

(** A configuration whose largest daydream time is below the smallest one
    stops [main] at start-up: "Ready" is shown, the clock is read, and
    [random.randint] raises [ValueError] on the empty range before any event
    is polled. *)
Theorem main_empty_window cfg w now cl :
  config_max_daydream_time cfg < config_min_daydream_time cfg ->
  w_clock w = now :: cl ->
  main cfg w =
  (Raise ValueError,
   set_trace (w_trace w ++ [ShowStatus "Ready"; Monotonic now]) (set_clock cl w)).
Proof.
  intros Hlt Hc. unfold main, bind, show_status_screen, emit, reschedule, bind,
    monotonic, randint. cbn [w_clock set_trace]. rewrite Hc.
  replace (max_daydream_time cfg <? min_daydream_time cfg) with true
    by (symmetry; apply Z.ltb_lt; unfold max_daydream_time, min_daydream_time; lia).
  cbn. by rewrite <- app_assoc.
Qed.

(** ** More on the speech cache *)

(** [speak_text] touches one file only, the cache file of its text and
    voice: every other file, and the tapes of the clock and of the random
    generator, are as before, whether the call returns or raises. *)
Theorem speak_text_other_files text dir p svc w path :
  path <> cache_file text dir svc ->
  w_files (snd (speak_text text dir p svc w)) !! path = w_files w !! path /\
  w_clock (snd (speak_text text dir p svc w)) = w_clock w /\
  w_random (snd (speak_text text dir p svc w)) = w_random w.
Proof.
  intros Hne. unfold speak_text. fold (cache_file text dir svc).
  unfold bind, path_exists, text_to_speech, wave_write, wave_read, play, emit,
    write_file, bind, raise, ret, lift.
  destruct (bool_decide _); cbn.
  - destruct (w_files w !! cache_file text dir svc) as [[]|]; cbn; auto.
  - destruct (w_speech w) as [|[e|audio] rest]; cbn; auto.
    destruct (_ || _); cbn; [by rewrite lookup_insert_ne|].
    rewrite lookup_insert_eq. cbn. by rewrite lookup_insert_ne.
Qed.

(** When the synthesis raises, the exception leaves [speak_text], nothing is
    played, and the cache is as it was: the phrase is synthesized anew at the
    next call. *)
Theorem speak_text_synthesis_error text dir p svc w e rest :
  w_files w !! cache_file text dir svc = None ->
  w_speech w = inl e :: rest ->
  speak_text text dir p svc w =
  (Raise e,
   set_trace (w_trace w ++ [PathExists (cache_file text dir svc);
                            TextToSpeech svc text])
     (set_speech rest w)).
Proof.
  intros Hf Hs. unfold speak_text. fold (cache_file text dir svc).
  unfold bind, path_exists, text_to_speech. rewrite Hf.
  rewrite bool_decide_eq_false_2 by (intros [? ?]; discriminate). cbn.
  rewrite Hs. cbn. by rewrite <- app_assoc.
Qed.

(** A sample rate that the wave module refuses spoils the cache: the first
    call for a phrase synthesizes it, raises [wave.Error] and leaves an empty
    file behind; the next call finds the file, synthesizes nothing and raises
    [EOFError] on reading it, and so does every call after it. *)
Theorem speak_bad_sample_rate cfg text w audio rest :
  output_sample_rate cfg <= 0 ->
  w_files w !! cache_file text (cache_dir cfg) (speech_svc cfg) = None ->
  w_speech w = inr audio :: rest ->
  let first := speak cfg text w in
  let second := speak cfg text (snd first) in
  fst first = Raise WaveError /\
  w_files (snd first) !! cache_file text (cache_dir cfg) (speech_svc cfg)
    = Some EmptyFile /\
  fst second = Raise EOFError /\
  w_trace (snd second) =
    w_trace (snd first)
    ++ [PathExists (cache_file text (cache_dir cfg) (speech_svc cfg));
        ReadFile (cache_file text (cache_dir cfg) (speech_svc cfg))] /\
  w_files (snd second) = w_files (snd first).
Proof.
  intros Hr Hf Hs first second.
  assert (E1 : first =
    (Raise WaveError,
     set_trace (w_trace w
                ++ [PathExists (cache_file text (cache_dir cfg) (speech_svc cfg));
                    TextToSpeech (speech_svc cfg) text;
                    WriteFile (cache_file text (cache_dir cfg) (speech_svc cfg))
                      EmptyFile])
       (set_files (<[cache_file text (cache_dir cfg) (speech_svc cfg) := EmptyFile]>
                     (w_files w))
          (set_speech rest w)))).
  { subst first. unfold speak, speak_text.
    fold (cache_file text (cache_dir cfg) (speech_svc cfg)).
    unfold bind, path_exists, text_to_speech, wave_write. rewrite Hf.
    rewrite bool_decide_eq_false_2 by (intros [? ?]; discriminate). cbn.
    rewrite Hs. cbn.
    replace (output_sample_rate cfg <=? 0) with true
      by (symmetry; by apply Z.leb_le).
    cbn. by rewrite <- !app_assoc. }
  subst second. rewrite E1. cbn [fst snd].
  split; [reflexivity|]. split; [cbn; by rewrite lookup_insert_eq|].
  unfold speak, speak_text.
  fold (cache_file text (cache_dir cfg) (speech_svc cfg)).
  unfold bind, path_exists, wave_read. cbn [w_files set_trace set_files].
  rewrite lookup_insert_eq.
  rewrite bool_decide_eq_true_2 by eauto. cbn.
  rewrite lookup_insert_eq. cbn. by rewrite <- !app_assoc.
Qed.

(** ** More on Working *)

Definition name_of (rs : list nat) : string :=
  string_of_list_ascii (map letter_of rs).

(** An error of the moderation service is fatal, unlike an error of the image
    service: with the twelve draws of the name on the tape, the text file is
    written, the moderation call is made, and [UnboundLocalError] (raised by
    the handler that formats the unbound [response]) leaves the cycle; no
    failure status is shown, nothing is spoken, no image is requested. *)
Theorem moderation_error_is_fatal cfg st w e mods (rs : list nat) rnd :
  w_moderation w = inl e :: mods ->
  w_random w = rs ++ rnd ->
  length rs = 12%nat ->
  working cfg st w =
  (Raise UnboundLocalError,
   set_trace (w_trace w ++ map RandomDraw rs
              ++ [WriteFile (text_file_of cfg (name_of rs)) (TextFile (msg st));
                  Moderation (image_base_prompt cfg +:+ msg st)])
     (set_moderation mods
        (set_files (<[text_file_of cfg (name_of rs) := TextFile (msg st)]>
                      (w_files w))
           (set_random rnd w)))).
Proof.
  intros Hm Hr Hl. unfold working. rewrite <- Hl.
  rewrite (bind_Ret _ _ _ _ _ (get_random_string_run rs w rnd Hr)).
  fold (name_of rs). fold (text_file_of cfg (name_of rs)).
  unfold bind, write_file, check_moderation, bind, moderation_create. cbn.
  rewrite Hm. cbn. by rewrite <- !app_assoc.
Qed.

(** With an empty list of failure phrases the failure path fails itself: a
    cycle stopped by the moderation gate shows the failure status and then
    raises [IndexError] from [random.choice], instead of returning to the
    polling loop. *)
Theorem empty_failed_lines_crash cfg st w mods (rs : list nat) rnd :
  failed_lines cfg = [] ->
  w_moderation w = inr true :: mods ->
  w_random w = rs ++ rnd ->
  length rs = 12%nat ->
  working cfg st w =
  (Raise IndexError,
   set_trace (w_trace w ++ map RandomDraw rs
              ++ [WriteFile (text_file_of cfg (name_of rs)) (TextFile (msg st));
                  Moderation (image_base_prompt cfg +:+ msg st);
                  ShowStatus "Creation failed!"])
     (set_moderation mods
        (set_files (<[text_file_of cfg (name_of rs) := TextFile (msg st)]>
                      (w_files w))
           (set_random rnd w)))).
Proof.
  intros Hf Hm Hr Hl. unfold working. rewrite <- Hl.
  rewrite (bind_Ret _ _ _ _ _ (get_random_string_run rs w rnd Hr)).
  fold (name_of rs). fold (text_file_of cfg (name_of rs)).
  unfold bind, write_file, check_moderation, bind, moderation_create. cbn.
  rewrite Hm. cbn. unfold creation_failed, bind, show_status_screen, emit, choice.
  rewrite Hf. cbn. by rewrite <- !app_assoc.
Qed.

(** Case analysis inside a computation. *)
Ltac emits_all :=
  repeat first
    [ match goal with
      | |- emits _ (if ?b then _ else _) => destruct b
      | |- emits _ (match ?x with inl _ => _ | inr _ => _ end) => destruct x
      end
    | emits_block ].

Definition is_image_request (e : effect) : bool :=
  match e with ImageCreate _ _ _ => true | _ => false end.

Definition no_image_request (e : effect) : bool := negb (is_image_request e).

Lemma speech_no_image_request e : is_speech e = true -> no_image_request e = true.
Proof. by destruct e as [| | | | | | | | | | | | | | | | ? []|]. Qed.

(** The image service is asked at most once in a cycle, for the prompt that
    the moderation service has just been asked about and has not flagged: the
    request follows the moderation call at once, with the same text. *)
Theorem image_request_is_moderated cfg st w r w' :
  working cfg st w = (r, w') ->
  let prompt := image_base_prompt cfg +:+ msg st in
  exists d,
    w_trace w' = w_trace w ++ d /\
    (over no_image_request d \/
     exists d1 d2 mods,
       d = d1 ++ [Moderation prompt;
                  ImageCreate prompt (img_width cfg) (img_height cfg)] ++ d2 /\
       w_moderation w = inr false :: mods /\
       over no_image_request d1 /\ over no_image_request d2).
Proof.
  intros H prompt. unfold working in H. unfold bind at 1 in H.
  destruct (get_random_string 12 w) as [r0 w1] eqn:E0.
  destruct (get_random_string_spec _ _ _ _ E0) as (rs & d0 & Hw & Hd0 & _).
  assert (Hd0' : over no_image_request d0).
  { eapply Forall_impl; [exact Hd0|]. by intros []. }
  destruct r0 as [name|e|];
    try (injection H as <- <-; exists d0; subst w1; split; [reflexivity|by left]).
  subst w1.
  unfold bind at 1, write_file in H. cbn [w_trace w_files set_trace set_random] in H.
  unfold bind at 1, check_moderation, bind at 1, moderation_create in H.
  cbn [w_moderation set_trace set_files set_random] in H.
  fold prompt in H.
  set (txt := WriteFile (path_join (output_dir cfg) (name +:+ ".txt"))
                (TextFile (msg st))) in *.
  destruct (w_moderation w) as [|[e|flagged] mods] eqn:Hm.
  - injection H as <- <-. exists (d0 ++ [txt]). cbn. rewrite <- app_assoc.
    split; [reflexivity|]. left. apply Forall_app. split; [exact Hd0'|].
    by repeat constructor.
  - injection H as <- <-. exists (d0 ++ [txt; Moderation prompt]). cbn.
    rewrite <- !app_assoc. split; [reflexivity|]. left.
    apply Forall_app. split; [exact Hd0'|]. by repeat constructor.
  - cbn [ret] in H. destruct flagged; cbn [negb] in H.
    + match type of H with creation_failed cfg st ?w4 = _ =>
        destruct (emits_creation_failed no_image_request cfg st
                    ltac:(intros [| | | | | | | | | | | | | | | | ? []|]; done)
                    w4) as (d2 & Ht2 & Hd2)
      end.
      rewrite H in Ht2. cbn in Ht2.
      exists (d0 ++ [txt; Moderation prompt] ++ d2). rewrite Ht2, <- !app_assoc.
      split; [reflexivity|]. left.
      repeat (apply Forall_app; split); auto; by repeat constructor.
    + unfold bind at 1, image_create in H.
      cbn [w_image set_trace set_files set_random set_moderation] in H.
      destruct (w_image w) as [|a imgs] eqn:Hi.
      { injection H as <- <-. exists (d0 ++ [txt; Moderation prompt]). cbn.
        rewrite <- !app_assoc. split; [reflexivity|]. left.
        apply Forall_app. split; [exact Hd0'|]. by repeat constructor. }
      match type of H with ?k ?w4 = _ =>
        assert (Hk : emits (over no_image_request) k)
          by (destruct a; emits_all; apply speech_no_image_request);
        destruct (Hk w4) as (d2 & Ht2 & Hd2)
      end.
      rewrite H in Ht2. cbn in Ht2.
      exists ((d0 ++ [txt])
              ++ [Moderation prompt;
                  ImageCreate prompt (img_width cfg) (img_height cfg)] ++ d2).
      rewrite Ht2, <- !app_assoc. split; [reflexivity|]. right.
      exists (d0 ++ [txt]), d2, mods. split; [by rewrite <- !app_assoc|].
      split; [reflexivity|]. split; [|exact Hd2].
      apply Forall_app. split; [exact Hd0'|]. by repeat constructor.
Qed.


(** ** A daydream cycle does not listen *)

Definition is_listening (e : effect) : bool :=
  match e with Record_ _ | Transcribe _ => true | _ => false end.

Definition not_listening (e : effect) : bool := negb (is_listening e).

Lemma speech_not_listening e : is_speech e = true -> not_listening e = true.
Proof. by destruct e as [| | | | | | | | | | | | | | | | ? []|]. Qed.

Lemma failure_not_listening e : is_failure e = true -> not_listening e = true.
Proof.
  unfold is_failure. destruct e as [| | | | | | | | | | | | | | | | ? []|]; done.
Qed.

Lemma working_not_listening cfg st : emits (over not_listening) (working cfg st).
Proof.
  pose proof speech_not_listening. pose proof failure_not_listening.
  unfold working.
  repeat first
    [ apply emits_creation_failed; assumption
    | match goal with
      | |- emits _ (if ?b then _ else _) => destruct b
      | |- emits _ (match ?x with inl _ => _ | inr _ => _ end) => destruct x
      end
    | emits_block ].
Qed.

Lemma compose_prompt_not_listening cfg st s :
  daydream st = true -> emits (over not_listening) (compose_prompt cfg st s).
Proof.
  intros Hd. unfold compose_prompt. rewrite Hd. cbn [negb]. repeat emits_block.
Qed.

(** A cycle triggered as a daydream never opens the microphone and never
    calls the transcription service, whatever the services answer and
    however the cycle ends: its prompt comes from the artist character. *)
Theorem daydream_cycle_never_listens cfg st w :
  daydream st = true ->
  exists d,
    w_trace (snd (cycle cfg st w)) = w_trace w ++ d /\
    Forall (fun e => is_listening e = false) d.
Proof.
  intros Hd.
  assert (Hc : emits (over not_listening) (cycle cfg st)).
  { pose proof speech_not_listening. unfold cycle.
    eapply emits_bind_returns; [apply _| |apply begin_cycle_returns|].
    - unfold begin_cycle. rewrite Hd. cbn [negb].
      destruct (start_new st); [|repeat emits_block].
      destruct (_ <? _); repeat emits_block.
    - intros [st1|st1] Hst; [repeat emits_block|].
      assert (Hd1 : daydream st1 = true) by (destruct Hst; congruence).
      unfold listen. rewrite Hd1.
      eapply emits_bind; [apply _|by apply compose_prompt_not_listening|].
      intros st2. apply working_not_listening. }
  destruct (Hc w) as (d & Ht & Ho). exists d. split; [exact Ht|].
  eapply Forall_impl; [exact Ho|]. intros e He. unfold not_listening in He.
  by destruct (is_listening e).
Qed.


(** ** A successful cycle *)

Lemma trace_extends {A} (m : M A) w r w' :
  emits (over (fun _ => true)) m -> m w = (r, w') ->
  exists d, w_trace w' = w_trace w ++ d.
Proof. intros Hm H. destruct (Hm w) as (d & Ht & _). rewrite H in Ht. eauto. Qed.

Lemma choice_side w side w1 :
  choice ["left"; "right"] w = (Ret side, w1) ->
  (side = "left" \/ side = "right") /\
  exists x, w_trace w1 = w_trace w ++ [RandomDraw x].
Proof.
  unfold choice, bind, random_draw. intros H.
  destruct (w_random w) as [|x rnd]; [discriminate|].
  injection H as <- <-. split; [|by exists x].
  match goal with
  | |- context [match ?n with O => _ | S _ => _ end] => destruct n as [|[|k]]
  end; [left|right|left; destruct k]; reflexivity.
Qed.

(** When the prompt passes the moderation gate and the image service returns
    an image, a cycle that returns has ended with this sequence: the raw image
    is written under the cycle's name, shown, the composed scene is saved as
    [name-verse.png], the clock is read and the next daydream is drawn between
    the two bounds from that reading. The name is twelve lowercase letters,
    the text file of the same name was written before, and the message of the
    session is the one that was illustrated. *)
Theorem successful_cycle_outcome cfg st w st' w' mods img imgs :
  w_moderation w = inr false :: mods ->
  w_image w = inr img :: imgs ->
  working cfg st w = (Ret st', w') ->
  exists name verse side now x d,
    String.length name = 12%nat /\
    Forall lowercase (list_ascii_of_string name) /\
    (side = "left" \/ side = "right") /\
    w_trace w' =
      w_trace w ++ d ++
      [WriteFile (path_join (output_dir cfg) (name +:+ ".png")) (ImageFile img);
       BlitImage (path_join (output_dir cfg) (name +:+ ".png"));
       DisplayUpdate;
       WriteFile (path_join (output_dir cfg) (name +:+ "-verse.png"))
         (Screenshot verse side img);
       Monotonic now; RandomDraw x] /\
    In (WriteFile (text_file_of cfg name) (TextFile (msg st))) d /\
    w_files w' !! path_join (output_dir cfg) (name +:+ "-verse.png")
      = Some (Screenshot verse side img) /\
    min_daydream_time cfg <= next_change_time st' - now <= max_daydream_time cfg /\
    msg st' = msg st.
Proof.
  intros Hm Hi H. unfold working in H.
  apply bind_Ret_inv in H as (name & w1 & Hn & H).
  destruct (get_random_string_spec _ _ _ _ Hn) as (rs & d0 & -> & _ & Hname).
  destruct (Hname name eq_refl) as [Hlen Hlow]. clear Hname Hn.
  unfold bind at 1, write_file in H.
  unfold bind at 1, check_moderation, bind at 1, moderation_create in H.
  cbn [w_moderation w_trace w_files set_trace set_files set_random] in H.
  rewrite Hm in H. cbn [ret negb] in H.
  unfold bind at 1, image_create in H.
  cbn [w_image w_trace w_files set_trace set_files set_random set_moderation] in H.
  rewrite Hi in H.
  apply bind_Ret_inv in H as ([[poet' critic'] verse] & w5 & Hg & H).
  eapply trace_extends in Hg as [dg Hg]; [|repeat emits_block].
  cbn [fst snd] in H.
  apply bind_Ret_inv in H as (side & w6 & Hc & H).
  apply choice_side in Hc as Hside.
  destruct Hside as [Hside [x6 Ht6]]. clear Hc.
  unfold bind at 1, emit in H.
  apply bind_Ret_inv in H as (phrase & w8 & Hp & H).
  eapply trace_extends in Hp as [dp Hp]; [|repeat emits_block].
  apply bind_Ret_inv in H as (? & w9 & Hs & H).
  eapply trace_extends in Hs as [ds Hs];
    [|destruct (negb (daydream st)); repeat emits_block].
  unfold bind at 1, write_file in H. unfold bind at 1, emit in H.
  unfold bind at 1 in H. unfold bind at 1 in H.
  cbn [w_trace w_files set_trace set_files] in H.
  unfold reschedule in H.
  apply bind_Ret_inv in H as (now & w10 & Hnow & H).
  unfold monotonic in Hnow. cbn [w_clock set_trace set_files] in Hnow.
  destruct (w_clock w9) as [|t cl]; [discriminate|].
  injection Hnow as <- <-.
  apply bind_Ret_inv in H as (r & w11 & Hr & H). injection H as <- <-.
  unfold randint in Hr.
  destruct (max_daydream_time cfg <? min_daydream_time cfg) eqn:Hle;
    [discriminate|].
  apply Z.ltb_ge in Hle.
  unfold bind, random_draw in Hr.
  cbn [w_random set_trace set_files set_clock] in Hr.
  destruct (w_random w9) as [|xr rnd]; [discriminate|].
  injection Hr as <- <-.
  exists name, verse, side, t, xr.
  cbn [w_trace set_trace] in Hg, Hp.
  exists (d0 ++ [WriteFile (text_file_of cfg name) (TextFile (msg st));
                 Moderation (image_base_prompt cfg +:+ msg st);
                 ImageCreate (image_base_prompt cfg +:+ msg st)
                   (img_width cfg) (img_height cfg)]
          ++ dg ++ [RandomDraw x6; RenderVerse verse side] ++ dp ++ ds).
  split; [exact Hlen|]. split; [exact Hlow|]. split; [exact Hside|].
  split.
  { cbn [w_trace set_trace]. rewrite Hs, Hp, Ht6, Hg. unfold text_file_of.
    rewrite <- !app_assoc. reflexivity. }
  split.
  { apply in_or_app. right. by left. }
  split.
  { cbn [w_files set_trace set_random set_clock set_files].
    apply lookup_insert_eq. }
  split.
  { cbn [next_change_time set_next_change_time].
    pose proof (Z.mod_pos_bound (Z.of_nat xr)
                  (max_daydream_time cfg - min_daydream_time cfg + 1)
                  ltac:(lia)).
    lia. }
  reflexivity.
Qed.

End Artist.

(** * Runs on concrete inputs *)

(** A stand-in for the digest, to run the program: the theorems above hold
    for every digest function. *)
Definition demo_digest (s : string) : string := s.

Definition demo_config : Config :=
  {| cache_dir := "cache"; output_dir := "out";
     speech_svc := {| language := "en-US"; gender := "Female"; voice := "Jenny" |};
     output_sample_rate := 16000; max_recording_time := 10;
     img_width := 512; img_height := 512; joystick := false;
     generate_button := 0; daydream_button := 1; shutdown_hold_button := 2;
     shutdown_press_button := 3; image_base_prompt := "A painting of ";
     num_verses := 2; config_min_daydream_time := 1;
     config_max_daydream_time := 2; max_consecutive_daydreams := 3;
     artist_system_prompt := "artist"; artist_base_prompt := "Imagine";
     poet_system_prompt := "poet"; verse_base_prompt := "Write";
     critic_system_prompt := "critic";
     welcome_words := ["Hello"]; welcome_lines := ["speak"];
     working_lines := ["working"]; finished_lines := ["done"];
     failed_lines := ["sorry"] |}.

Definition demo_session (dd : bool) (count : Z) : Session :=
  {| start_new := true; daydream := dd; consecutive_daydreams := count;
     msg := "a cat"; next_change_time := 50;
     ai_artist := new_character "artist"; poet := new_character "poet";
     critic := new_character "critic" |}.

Definition no_buttons : Z -> bool := fun _ => false.

Definition empty_world : World :=
  {| w_events := []; w_clock := []; w_random := []; w_mic := [];
     w_whisper := []; w_chat := []; w_moderation := []; w_image := [];
     w_speech := []; w_files := ∅; w_trace := [] |}.

(** Escape is pressed at a poll whose clock reading, 100, is past the timer,
    50; the artist answers, moderation flags the prompt. *)
Definition flagged_daydream_world : World :=
  set_events [([KEYDOWN K_ESCAPE], no_buttons)]
    (set_clock [100; 200]
       (set_random (repeat 0%nat 20)
          (set_chat [inr "a dog"]
             (set_moderation [inr true]
                (set_speech [inr [Byte.x01; Byte.x02; Byte.x03]] empty_world))))).

(** The same, when the cycle has already been triggered. *)
Definition flagged_world : World := set_events [] flagged_daydream_world.

(** ** The speech cache *)

Lemma speak_text_twice_witness :
  let first := speak_text demo_digest "sorry" "cache" (audio_player demo_config)
                 (speech_svc demo_config) flagged_world in
  let second := speak_text demo_digest "sorry" "cache" (audio_player demo_config)
                  (speech_svc demo_config) (snd first) in
  fst first = Ret tt /\
  exists d1,
    w_trace (snd first) = w_trace flagged_world ++ d1 /\
    (synthesis_calls d1 <= 1)%nat /\
    (fst first = Ret tt ->
     exists d2 frames,
       w_trace (snd second) = w_trace (snd first) ++ d2 /\
       fst second = Ret tt /\
       synthesis_calls d2 = 0%nat /\
       (synthesis_calls (d1 ++ d2) <= 1)%nat /\
       played d1 = [frames] /\ played d2 = [frames]).
Proof.
  split; [reflexivity|].
  apply (speak_text_twice demo_digest "sorry" "cache" (audio_player demo_config)
           (speech_svc demo_config) flagged_world).
Defined.

(** ** The verse arbiter on replies with digits *)

(** The first decimal digit of a reply in the plain sense of the words: the
    first of the characters '0' to '9', read from the left. *)
Fixpoint first_decimal_digit (reply : string) : option Z :=
  match reply with
  | EmptyString => None
  | String c rest =>
      if isdecimal c then Some (Z.of_nat (nat_of_ascii c) - 48)
      else first_decimal_digit rest
  end.

Definition superscript_two : ascii := "178"%char.

(** Two verses and then the critic's reply on the chat tape. *)
Definition critic_world (reply : string) : World :=
  set_chat [inr "roses"; inr "violets"; inr reply] (set_random [0%nat] empty_world).

(** C3 at a reply that starts with a superscript two and goes on with "1":
    the first decimal digit is 1, with 1 <= 1 <= 2, but [str.isdigit] holds of
    the superscript, [int] refuses it, and the call raises [ValueError]
    instead of returning the first verse. *)
Theorem get_best_verse_superscript_before_digit :
  let reply := String superscript_two "1" in
  first_decimal_digit reply = Some 1 /\
  py_index ["roses"; "violets"] (1 - 1) = inr "roses" /\
  fst (get_best_verse (new_character "poet") (new_character "critic")
         "Write" "a cat" 2 (critic_world reply)) = Raise ValueError.
Proof. repeat split. Qed.

(** C4 at a reply that holds a superscript two and no decimal digit: the call
    raises [ValueError] instead of falling back to a random verse. *)
Theorem get_best_verse_superscript_only :
  let reply := String "x" (String superscript_two "") in
  first_decimal_digit reply = None /\
  fst (get_best_verse (new_character "poet") (new_character "critic")
         "Write" "a cat" 2 (critic_world reply)) = Raise ValueError.
Proof. repeat split. Qed.

(** C10. [get_best_verse] is not total on replies whose first digit is out of
    range: there are a list of verses and a reply whose first digit [d] is
    larger than the number of verses, for which the look-up [verses[d - 1]] is
    out of bounds and the call fails with [IndexError]; it neither returns a
    verse nor falls back to a random one. *)
Theorem get_best_verse_index_error :
  exists (verses : list string) (reply : string) (c : ascii) (d : Z) (w : World),
    w_chat w = map inr verses ++ [inr reply] /\
    first_digit reply = Some c /\
    int_of_char c = inr d /\
    Z.of_nat (length verses) < d /\
    py_index verses (d - 1) = inl IndexError /\
    fst (get_best_verse (new_character "poet") (new_character "critic")
           "Write" "a cat" (Z.of_nat (length verses)) w) = Raise IndexError.
Proof.
  exists ["roses"; "violets"], "I choose poem 3.", "3"%char, 3,
    (critic_world "I choose poem 3.").
  split; [reflexivity|]. split; [reflexivity|]. split; [reflexivity|].
  split; [simpl; lia|].
  apply (get_best_verse_out_of_range _ _ _ _ _ ["roses"; "violets"]
           "I choose poem 3." _ [] "3"%char 3); try reflexivity.
Qed.

(** ** The session loop *)

(** Three polls with nothing polled but an expired timer, the counter of
    consecutive daydreams already over the limit. *)
Definition idle_world : World :=
  set_events [([], no_buttons); ([KEYDOWN K_d], no_buttons); ([], no_buttons)]
    (set_clock [100; 101; 200; 201; 300; 301]
       (set_random [7%nat; 8%nat; 9%nat] empty_world)).

Lemma daydream_limit_blocks_generation_witness :
  (exists d,
     w_trace (snd (main_loop demo_digest demo_config 5 (demo_session true 4)
                     idle_world)) = w_trace idle_world ++ d /\
     over is_idle d /\ Forall (fun e => is_generation e = false) d) /\
  (exists r,
     min_daydream_time demo_config <= r <= max_daydream_time demo_config /\
     cycle demo_digest demo_config (demo_session true 4) idle_world =
     (Ret (set_next_change_time (100 + r) (demo_session true 4)),
      set_trace (w_trace idle_world ++ [Monotonic 100; RandomDraw 7])
        (set_random [8%nat; 9%nat]
           (set_clock [101; 200; 201; 300; 301] idle_world)))).
Proof.
  destruct (daydream_limit_blocks_generation demo_digest demo_config) as [A B].
  split.
  - apply (A 5%nat (demo_session true 4) idle_world).
    + simpl. lia.
    + repeat constructor.
  - apply (B (demo_session true 4) idle_world 100
             [101; 200; 201; 300; 301] 7%nat [8%nat; 9%nat]).
    + reflexivity.
    + simpl. lia.
    + reflexivity.
    + reflexivity.
    + vm_compute. discriminate.
Defined.

(** A daydream is triggered by the key 'd' before the timer expires; the
    cycle fails at the moderation gate. *)
Definition keyed_daydream_world : World :=
  set_events [([KEYDOWN K_d], no_buttons)] (set_clock [10; 20] flagged_world).

(** The space bar is pressed at the second poll, before the timer expires;
    the greeting is spoken, and the ten recordings hold no voice. *)
Definition keyed_next_world : World :=
  set_events [([], no_buttons); ([KEYDOWN K_SPACE], no_buttons)]
    (set_clock [10; 20]
       (set_random (repeat 0%nat 20)
          (set_mic (repeat ([], false) 10)
             (set_speech [inr [Byte.x01; Byte.x02; Byte.x03]] empty_world)))).

(** What C6 says of the round that starts in session [st] and world [w]. *)
Definition counted_round (st : Session) (w : World) : Prop :=
  exists st' w',
    iteration demo_digest demo_config st w = (Ret (Continue st'), w') /\
    exists idle readings q evs now cl st1 w1,
      w_events w = idle ++ q :: evs /\
      w_clock w = readings ++ now :: cl /\
      Forall2 (fun q t => poll_status demo_config st q t = None) idle readings /\
      await_event demo_config st w = (Ret (Some st1), w1) /\
      w_events w1 = evs /\ w_clock w1 = cl /\
      cycle demo_digest demo_config st1 w1 = (Ret st', w') /\
      consecutive_daydreams st' = consecutive_daydreams st1 /\
      ((poll_status demo_config st q now = Some Daydream /\
        daydream st' = true /\
        consecutive_daydreams st1 = consecutive_daydreams st + 1 /\
        consecutive_daydreams st <= consecutive_daydreams st') \/
       (poll_status demo_config st q now = Some Next /\
        daydream st' = false /\
        consecutive_daydreams st1 = 0)).

(** A round triggered by Daydream and a round triggered by Next, both from a
    counter at 2. *)
Lemma consecutive_daydreams_counter_witness :
  counted_round (demo_session false 2) keyed_daydream_world /\
  counted_round (demo_session true 2) keyed_next_world.
Proof.
  split.
  - eexists _, _.
    assert (H : iteration demo_digest demo_config (demo_session false 2)
                  keyed_daydream_world
                = (Ret (Continue _), _)) by (vm_compute; reflexivity).
    split; [exact H|].
    exact (consecutive_daydreams_counter demo_digest demo_config _ _ _ _ H).
  - eexists _, _.
    assert (H : iteration demo_digest demo_config (demo_session true 2)
                  keyed_next_world
                = (Ret (Continue _), _)) by (vm_compute; reflexivity).
    split; [exact H|].
    exact (consecutive_daydreams_counter demo_digest demo_config _ _ _ _ H).
Defined.

(** The two rounds, computed: the daydream round ends with the counter at 3,
    the round triggered by the space bar with the counter at 0. *)
Example counter_after_rounds :
  (exists st' w',
     iteration demo_digest demo_config (demo_session false 2)
       keyed_daydream_world = (Ret (Continue st'), w') /\
     daydream st' = true /\ consecutive_daydreams st' = 3) /\
  (exists st' w',
     iteration demo_digest demo_config (demo_session true 2)
       keyed_next_world = (Ret (Continue st'), w') /\
     daydream st' = false /\ consecutive_daydreams st' = 0).
Proof.
  split; eexists _, _; (split; [vm_compute; reflexivity|]); split; reflexivity.
Qed.

(** Escape is pressed before the timer expires. *)
Definition quit_world : World :=
  set_events [([KEYDOWN K_ESCAPE], no_buttons)] (set_clock [10] empty_world).

Lemma quit_before_timer_expiry_witness :
  let w' := set_trace [EventGet; Monotonic 10; PygameQuit]
              (set_clock [] (set_events [] quit_world)) in
  poll_loop demo_config (demo_session false 0) 1 quit_world = (Ret None, w') /\
  iteration demo_digest demo_config (demo_session false 0) quit_world
    = (Ret Shutdown, w').
Proof.
  apply (quit_before_timer_expiry demo_digest demo_config (demo_session false 0)
           0%nat quit_world ([KEYDOWN K_ESCAPE], no_buttons) [] 10 []);
    reflexivity.
Defined.

(** C7 fails when the timer has expired: Escape is polled, so the polled
    event is Quit, at a clock reading of 100, past the timer at 50; the machine
    does not shut down but runs a daydream cycle and returns to polling. *)
Lemma quit_lost_on_timer_expiry :
  polled_event demo_config ([KEYDOWN K_ESCAPE], no_buttons) = Some Quit /\
  w_events flagged_daydream_world = [([KEYDOWN K_ESCAPE], no_buttons)] /\
  exists st',
    fst (iteration demo_digest demo_config (demo_session false 0)
           flagged_daydream_world) = Ret (Continue st') /\
    daydream st' = true /\ consecutive_daydreams st' = 1.
Proof.
  split; [reflexivity|]. split; [reflexivity|].
  eexists. split; [vm_compute; reflexivity|].
  split; reflexivity.
Qed.

(** ** Failing cycles *)

Lemma pair_eta {A B} (p : A * B) : p = (fst p, snd p).
Proof. by destruct p. Defined.



Lemma failed_cycle_writes_text_only_witness :
  gate_fails flagged_world /\
  exists d,
    w_trace (snd (working demo_digest demo_config (demo_session false 0)
                    flagged_world)) = w_trace flagged_world ++ d /\
    Forall (fun e => is_image_write e = false) d /\
    (forall st',
       fst (working demo_digest demo_config (demo_session false 0)
              flagged_world) = Ret st' ->
       exists name,
         String.length name = 12%nat /\
         Forall lowercase (list_ascii_of_string name) /\
         WriteFile (text_file_of demo_config name)
           (TextFile (msg (demo_session false 0))) ∈ d).
Proof.
  assert (G : gate_fails flagged_world) by (eexists; reflexivity).
  split; [exact G|].
  apply (failed_cycle_writes_text_only demo_digest demo_config
           (demo_session false 0) flagged_world _ _ (or_introl G)).
  apply pair_eta.
Defined.

(** C9 fails on the text file: the moderation gate fails, and the cycle has
    written the text file of its message to the output directory. *)
Lemma failed_cycle_leaves_text_file :
  let run := working demo_digest demo_config (demo_session false 0) flagged_world in
  gate_fails flagged_world /\
  w_files flagged_world !! "out/aaaaaaaaaaaa.txt" = None /\
  fst run = Ret (demo_session false 0) /\
  w_files (snd run) !! "out/aaaaaaaaaaaa.txt" = Some (TextFile "a cat").
Proof.
  split; [eexists; reflexivity|]. repeat split; vm_compute; reflexivity.
Qed.



(** ** A successful cycle, for comparison *)

(** The gate passes, the image arrives, the critic chooses the second of two
    verses. *)
Definition success_world : World :=
  set_clock [100]
    (set_random (repeat 0%nat 20)
       (set_chat [inr "roses"; inr "violets"; inr "I choose 2 because..."]
          (set_moderation [inr false]
             (set_image [inr [Byte.x89; Byte.x50]] empty_world)))).

Example successful_cycle_writes_three_files :
  let run := working demo_digest demo_config (demo_session true 1) success_world in
  (exists st', fst run = Ret st' /\ next_change_time st' = 100 + 60) /\
  w_files (snd run) !! "out/aaaaaaaaaaaa.txt" = Some (TextFile "a cat") /\
  w_files (snd run) !! "out/aaaaaaaaaaaa.png"
    = Some (ImageFile [Byte.x89; Byte.x50]) /\
  w_files (snd run) !! "out/aaaaaaaaaaaa-verse.png"
    = Some (Screenshot "violets" "left" [Byte.x89; Byte.x50]) /\
  synthesis_calls (w_trace (snd run)) = 0%nat.
Proof.
  split; [eexists; split; vm_compute; reflexivity|].
  repeat split; vm_compute; reflexivity.
Qed.

(** * Runs for the further properties *)

(** [demo_config] with another sample rate, daydream window (in minutes) and
    list of failure phrases. *)
Definition variant_config (sample_rate lo hi : Z) (failed : list string)
  : Config :=
  {| cache_dir := cache_dir demo_config; output_dir := output_dir demo_config;
     speech_svc := speech_svc demo_config;
     output_sample_rate := sample_rate;
     max_recording_time := max_recording_time demo_config;
     img_width := img_width demo_config; img_height := img_height demo_config;
     joystick := joystick demo_config;
     generate_button := generate_button demo_config;
     daydream_button := daydream_button demo_config;
     shutdown_hold_button := shutdown_hold_button demo_config;
     shutdown_press_button := shutdown_press_button demo_config;
     image_base_prompt := image_base_prompt demo_config;
     num_verses := num_verses demo_config;
     config_min_daydream_time := lo; config_max_daydream_time := hi;
     max_consecutive_daydreams := max_consecutive_daydreams demo_config;
     artist_system_prompt := artist_system_prompt demo_config;
     artist_base_prompt := artist_base_prompt demo_config;
     poet_system_prompt := poet_system_prompt demo_config;
     verse_base_prompt := verse_base_prompt demo_config;
     critic_system_prompt := critic_system_prompt demo_config;
     welcome_words := welcome_words demo_config;
     welcome_lines := welcome_lines demo_config;
     working_lines := working_lines demo_config;
     finished_lines := finished_lines demo_config;
     failed_lines := failed |}.

(** ** Events *)

Lemma joystick_quit_needs_hold_witness :
  no_buttons 2 = false /\
  check_for_event (Some no_buttons) 0 1 2 3 [JOYBUTTONDOWN 3; KEYDOWN K_d]
    <> Some Quit.
Proof.
  split; [reflexivity|].
  apply (joystick_quit_needs_hold no_buttons 0 1 2 3
           [JOYBUTTONDOWN 3; KEYDOWN K_d]); [reflexivity|].
  intros H. apply list_elem_of_In in H. simpl in H.
  destruct H as [H|[H|[]]]; discriminate H.
Defined.

Definition polling_world : World :=
  set_events [([], no_buttons); ([KEYDOWN K_SPACE], no_buttons); ([], no_buttons)]
    (set_clock [10; 20; 30] empty_world).

Lemma await_event_first_status_witness :
  await_event demo_config (demo_session true 2) polling_world =
  (Ret (Some (on_next (demo_session true 2))),
   world_after_polls [([], no_buttons)] [30] (poll_effects [10; 20])
     polling_world).
Proof.
  apply (await_event_first_status demo_config (demo_session true 2)
           [([], no_buttons)] [10] polling_world
           ([KEYDOWN K_SPACE], no_buttons) [([], no_buttons)] 20 [30] Next);
    try reflexivity.
  repeat constructor.
Defined.

(** Nothing at the first poll, Escape at the second, both before the timer
    expires. *)
Definition idle_then_quit_world : World :=
  set_events [([], no_buttons); ([KEYDOWN K_ESCAPE], no_buttons)]
    (set_clock [10; 20; 30] empty_world).

Lemma shutdown_only_on_quit_witness :
  exists w',
    iteration demo_digest demo_config (demo_session false 0)
      idle_then_quit_world = (Ret Shutdown, w') /\
    exists idle readings q evs now cl,
      w_events idle_then_quit_world = idle ++ q :: evs /\
      w_clock idle_then_quit_world = readings ++ now :: cl /\
      Forall2 (fun q t => poll_status demo_config (demo_session false 0) q t
                          = None) idle readings /\
      polled_event demo_config q = Some Quit /\
      now < next_change_time (demo_session false 0) /\
      w_events w' = evs /\ w_clock w' = cl /\
      w_trace w' = w_trace idle_then_quit_world
                   ++ poll_effects (readings ++ [now]) ++ [PygameQuit] /\
      over is_poll (poll_effects (readings ++ [now])).
Proof.
  exists (set_trace [EventGet; Monotonic 10; EventGet; Monotonic 20; PygameQuit]
            (set_clock [30] (set_events [] idle_then_quit_world))).
  split; [reflexivity|].
  apply (shutdown_only_on_quit demo_digest demo_config (demo_session false 0)
           idle_then_quit_world). reflexivity.
Defined.

Lemma main_empty_window_witness :
  main demo_digest (variant_config 16000 5 2 ["sorry"]) quit_world =
  (Raise ValueError,
   set_trace (w_trace quit_world ++ [ShowStatus "Ready"; Monotonic 10])
     (set_clock [] quit_world)).
Proof.
  apply (main_empty_window demo_digest (variant_config 16000 5 2 ["sorry"])
           quit_world 10 []); [simpl; lia|reflexivity].
Defined.

(** ** Names and characters *)

Lemma get_random_string_draws_witness :
  exists name,
    get_random_string 3 (set_random [0; 25; 27; 5]%nat empty_world) =
    (Ret name,
     set_trace (w_trace (set_random [0; 25; 27; 5]%nat empty_world)
                ++ map RandomDraw [0; 25; 27]%nat)
       (set_random [5%nat] (set_random [0; 25; 27; 5]%nat empty_world))) /\
    name = string_of_list_ascii (map letter_of [0; 25; 27]%nat) /\
    String.length name = 3%nat /\
    Forall lowercase (list_ascii_of_string name).
Proof.
  apply (get_random_string_draws 3 [0; 25; 27]%nat
           (set_random [0; 25; 27; 5]%nat empty_world) [5%nat]); reflexivity.
Defined.

Lemma set_system_prompt_not_kept_witness :
  exists c',
    set_system_prompt (new_character "poet") "critic" = inr c' /\
    messages c' = {| role := "system"; content := "critic" |}
                  :: tail (messages (new_character "poet")) /\
    system_prompt c' = system_prompt (new_character "poet") /\
    reset c' = reset (new_character "poet").
Proof.
  apply (set_system_prompt_not_kept (new_character "poet") "critic").
  exists "poet", []. reflexivity.
Defined.

(** ** The verse arbiter *)

Lemma generate_verses_transcript_witness :
  exists p' w',
    generate_verses (length ["roses"; "violets"]) (new_character "poet")
      "Write a cat" [] (critic_world "2") = (Ret (p', ["roses"; "violets"]), w') /\
    messages p' = messages (new_character "poet")
                  ++ dialogue "Write a cat" ["roses"; "violets"] /\
    length (messages p') =
      (length (messages (new_character "poet"))
       + 2 * length ["roses"; "violets"])%nat /\
    w_trace w' =
      w_trace (critic_world "2")
      ++ map (poet_request (messages (new_character "poet")) "Write a cat"
                ["roses"; "violets"])
           (seq 0 (length ["roses"; "violets"])).
Proof.
  apply (generate_verses_transcript ["roses"; "violets"] (new_character "poet")
           "Write a cat" (critic_world "2") [inr "2"]).
  reflexivity.
Defined.

Lemma get_best_verse_requests_witness :
  exists d,
    w_trace (snd (get_best_verse (new_character "poet") (new_character "critic")
                    "Write" "a cat" 2 (critic_world "2"))) =
      w_trace (critic_world "2")
      ++ map (poet_request [ {| role := "system"; content := "poet" |} ]
                (verse_prompt "Write" "a cat") ["roses"; "violets"])
           (seq 0 2)
      ++ [ChatCompletion [ {| role := "system"; content := "critic" |};
                           user_message
                             (critic_message "a cat" ["roses"; "violets"]) ]]
      ++ d /\
    over is_draw d.
Proof.
  apply (get_best_verse_requests (new_character "poet") (new_character "critic")
           "Write" "a cat" 2 ["roses"; "violets"] "2" (critic_world "2") []);
    reflexivity.
Defined.

Lemma get_best_verse_zero_selects_last_witness :
  exists p' c' w',
    get_best_verse (new_character "poet") (new_character "critic")
      "Write" "a cat" 2 (critic_world "Poem 0") = (Ret (p', c', "violets"), w').
Proof.
  apply (get_best_verse_zero_selects_last (new_character "poet")
           (new_character "critic") "Write" "a cat" 2 ["roses"; "violets"]
           "Poem 0" (critic_world "Poem 0") [] "0"%char "violets");
    reflexivity.
Defined.

(** ** Prompts *)

Lemma daydream_keeps_history_witness :
  exists st' w',
    compose_prompt demo_digest demo_config (demo_session true 1) []
      flagged_world = (Ret st', w') /\
    exists answer rest,
      w_chat flagged_world = inr answer :: rest /\
      msg st' = answer /\
      messages (ai_artist st') =
        messages (ai_artist (demo_session true 1))
        ++ [user_message (daydream_request demo_config
                            (msg (demo_session true 1)));
            assistant_message answer] /\
      w_trace w' =
        w_trace flagged_world
        ++ [ShowStatus "Daydreaming...";
            ChatCompletion
              (messages (ai_artist (demo_session true 1))
               ++ [user_message (daydream_request demo_config
                                   (msg (demo_session true 1)))])] /\
      poet st' = poet (demo_session true 1) /\
      critic st' = critic (demo_session true 1) /\
      next_change_time st' = next_change_time (demo_session true 1).
Proof.
  eexists _, _. split; [reflexivity|].
  eapply (daydream_keeps_history demo_digest demo_config (demo_session true 1)
            [] flagged_world); reflexivity.
Defined.

(** ** Listening *)

Definition silent_world : World :=
  set_mic [([], false); ([], false); ([Byte.x01], true)] empty_world.

Lemma listen_gives_up_on_silence_witness :
  listen demo_digest demo_config (demo_session false 0) 2 silent_world =
  (Ret (demo_session false 0),
   set_trace (w_trace silent_world
              ++ repeat (Record_ (max_recording_time demo_config)) 2
              ++ [ShowStatus "Ready"])
     (set_mic [([Byte.x01], true)] silent_world)).
Proof.
  apply (listen_gives_up_on_silence demo_digest demo_config
           (demo_session false 0) [([], false); ([], false)] silent_world
           [([Byte.x01], true)]); [reflexivity|reflexivity|].
  repeat constructor.
Defined.

Lemma listen_takes_first_voice_witness :
  listen demo_digest demo_config (demo_session false 0) 10 silent_world =
  (st1 <- compose_prompt demo_digest demo_config (demo_session false 0)
            [Byte.x01] ;;
   working demo_digest demo_config st1)
    (set_trace (w_trace silent_world
                ++ repeat (Record_ (max_recording_time demo_config)) 3)
       (set_mic [] silent_world)).
Proof.
  apply (listen_takes_first_voice demo_digest demo_config
           (demo_session false 0) [([], false); ([], false)] 10 [Byte.x01]
           silent_world []); [reflexivity|reflexivity| |simpl; lia].
  repeat constructor.
Defined.

(** ** The speech cache *)

Definition speechless_world : World :=
  set_speech [inl (ServiceError 500)] empty_world.

Lemma speak_text_other_files_witness :
  let run := speak_text demo_digest "sorry" "cache" (audio_player demo_config)
               (speech_svc demo_config) flagged_world in
  w_files (snd run) !! "out/aaaaaaaaaaaa.txt"
    = w_files flagged_world !! "out/aaaaaaaaaaaa.txt" /\
  w_clock (snd run) = w_clock flagged_world /\
  w_random (snd run) = w_random flagged_world.
Proof.
  apply (speak_text_other_files demo_digest "sorry" "cache"
           (audio_player demo_config) (speech_svc demo_config) flagged_world
           "out/aaaaaaaaaaaa.txt").
  intros H. vm_compute in H. discriminate H.
Defined.

Lemma speak_text_synthesis_error_witness :
  speak_text demo_digest "sorry" "cache" (audio_player demo_config)
    (speech_svc demo_config) speechless_world =
  (Raise (ServiceError 500),
   set_trace (w_trace speechless_world
              ++ [PathExists (cache_file demo_digest "sorry" "cache"
                                (speech_svc demo_config));
                  TextToSpeech (speech_svc demo_config) "sorry"])
     (set_speech [] speechless_world)).
Proof.
  apply (speak_text_synthesis_error demo_digest "sorry" "cache"
           (audio_player demo_config) (speech_svc demo_config)
           speechless_world (ServiceError 500) []); reflexivity.
Defined.

Definition spoken_world : World :=
  set_speech [inr [Byte.x01; Byte.x02]] empty_world.

Lemma speak_bad_sample_rate_witness :
  let cfg := variant_config 0 1 2 ["sorry"] in
  let first := speak demo_digest cfg "sorry" spoken_world in
  let second := speak demo_digest cfg "sorry" (snd first) in
  fst first = Raise WaveError /\
  w_files (snd first)
    !! cache_file demo_digest "sorry" (cache_dir cfg) (speech_svc cfg)
    = Some EmptyFile /\
  fst second = Raise EOFError /\
  w_trace (snd second) =
    w_trace (snd first)
    ++ [PathExists (cache_file demo_digest "sorry" (cache_dir cfg)
                      (speech_svc cfg));
        ReadFile (cache_file demo_digest "sorry" (cache_dir cfg)
                    (speech_svc cfg))] /\
  w_files (snd second) = w_files (snd first).
Proof.
  apply (speak_bad_sample_rate demo_digest (variant_config 0 1 2 ["sorry"])
           "sorry" spoken_world [Byte.x01; Byte.x02] []);
    [simpl; lia|reflexivity|reflexivity].
Defined.

(** ** Working *)

Definition unmoderated_world : World :=
  set_moderation [inl (ServiceError 500)]
    (set_random (repeat 0%nat 12) empty_world).

Lemma moderation_error_is_fatal_witness :
  working demo_digest demo_config (demo_session false 0) unmoderated_world =
  (Raise UnboundLocalError,
   set_trace (w_trace unmoderated_world ++ map RandomDraw (repeat 0%nat 12)
              ++ [WriteFile (text_file_of demo_config
                               (name_of (repeat 0%nat 12)))
                    (TextFile (msg (demo_session false 0)));
                  Moderation (image_base_prompt demo_config
                              +:+ msg (demo_session false 0))])
     (set_moderation []
        (set_files (<[text_file_of demo_config (name_of (repeat 0%nat 12))
                      := TextFile (msg (demo_session false 0))]>
                      (w_files unmoderated_world))
           (set_random [] unmoderated_world)))).
Proof.
  apply (moderation_error_is_fatal demo_digest demo_config
           (demo_session false 0) unmoderated_world (ServiceError 500) []
           (repeat 0%nat 12) []); reflexivity.
Defined.

Definition phraseless_world : World :=
  set_moderation [inr true] (set_random (repeat 0%nat 12) empty_world).

Lemma empty_failed_lines_crash_witness :
  let cfg := variant_config 16000 1 2 [] in
  working demo_digest cfg (demo_session false 0) phraseless_world =
  (Raise IndexError,
   set_trace (w_trace phraseless_world ++ map RandomDraw (repeat 0%nat 12)
              ++ [WriteFile (text_file_of cfg (name_of (repeat 0%nat 12)))
                    (TextFile (msg (demo_session false 0)));
                  Moderation (image_base_prompt cfg
                              +:+ msg (demo_session false 0));
                  ShowStatus "Creation failed!"])
     (set_moderation []
        (set_files (<[text_file_of cfg (name_of (repeat 0%nat 12))
                      := TextFile (msg (demo_session false 0))]>
                      (w_files phraseless_world))
           (set_random [] phraseless_world)))).
Proof.
  apply (empty_failed_lines_crash demo_digest (variant_config 16000 1 2 [])
           (demo_session false 0) phraseless_world [] (repeat 0%nat 12) []);
    reflexivity.
Defined.

Lemma image_request_is_moderated_witness :
  let run := working demo_digest demo_config (demo_session true 1)
               success_world in
  let prompt := image_base_prompt demo_config +:+ msg (demo_session true 1) in
  exists d,
    w_trace (snd run) = w_trace success_world ++ d /\
    (over no_image_request d \/
     exists d1 d2 mods,
       d = d1 ++ [Moderation prompt;
                  ImageCreate prompt (img_width demo_config)
                    (img_height demo_config)] ++ d2 /\
       w_moderation success_world = inr false :: mods /\
       over no_image_request d1 /\ over no_image_request d2).
Proof.
  apply (image_request_is_moderated demo_digest demo_config
           (demo_session true 1) success_world
           (fst (working demo_digest demo_config (demo_session true 1)
                   success_world))
           (snd (working demo_digest demo_config (demo_session true 1)
                   success_world))).
  apply pair_eta.
Defined.

Lemma daydream_cycle_never_listens_witness :
  daydream (demo_session true 1) = true /\
  exists d,
    w_trace (snd (cycle demo_digest demo_config (demo_session true 1)
                    flagged_world)) = w_trace flagged_world ++ d /\
    Forall (fun e => is_listening e = false) d.
Proof.
  split; [reflexivity|].
  apply (daydream_cycle_never_listens demo_digest demo_config
           (demo_session true 1) flagged_world). reflexivity.
Defined.

Lemma successful_cycle_outcome_witness :
  exists st' w',
    working demo_digest demo_config (demo_session true 1) success_world
      = (Ret st', w') /\
    exists name verse side now x d,
      String.length name = 12%nat /\
      Forall lowercase (list_ascii_of_string name) /\
      (side = "left" \/ side = "right") /\
      w_trace w' =
        w_trace success_world ++ d ++
        [WriteFile (path_join (output_dir demo_config) (name +:+ ".png"))
           (ImageFile [Byte.x89; Byte.x50]);
         BlitImage (path_join (output_dir demo_config) (name +:+ ".png"));
         DisplayUpdate;
         WriteFile (path_join (output_dir demo_config) (name +:+ "-verse.png"))
           (Screenshot verse side [Byte.x89; Byte.x50]);
         Monotonic now; RandomDraw x] /\
      In (WriteFile (text_file_of demo_config name)
            (TextFile (msg (demo_session true 1)))) d /\
      w_files w' !! path_join (output_dir demo_config) (name +:+ "-verse.png")
        = Some (Screenshot verse side [Byte.x89; Byte.x50]) /\
      min_daydream_time demo_config <= next_change_time st' - now
        <= max_daydream_time demo_config /\
      msg st' = msg (demo_session true 1).
Proof.
  eexists _, _. split; [vm_compute; reflexivity|].
  eapply (successful_cycle_outcome demo_digest demo_config (demo_session true 1)
            success_world _ _ [] [Byte.x89; Byte.x50] []);
    [reflexivity|reflexivity|vm_compute; reflexivity].
Defined.
